(** * Emotion_Detect backend: a shallow embedding of [backend/app.py]

    The Flask server keeps four module-level globals ([camera],
    [is_running], [emotion_data], [current_emotion]), a frame generator
    ([generate_frames]) and a handful of request handlers.  The handlers and
    the generator are embedded here as functions over an explicit server
    state; exceptions are values of [Exc]; the camera, the clock and the
    analyzer are the only external parties and appear as explicit oracles.
    Python's [float] is the binary64 [float] of the kernel.

    The [threading.Lock] of the source only serialises accesses; the
    embedding is sequential (one handler, or one generator step, at a
    time), so [with lock:] is the identity here. *)

From Stdlib Require Import String List Bool Arith ZArith QArith Qabs Lia Lqa.
From Stdlib Require Import Uint63 Floats.
Import ListNotations.

Set Implicit Arguments.
Set Warnings "-inexact-float".
Local Open Scope nat_scope.

(** ** Python values *)

(** A raised exception: its class, and the text [str(e)] gives. *)
Record Exn : Type := mkExn { exn_class : string; exn_str : string }.

(** A Python computation either returns or raises. *)
Inductive Exc (A : Type) : Type :=
| Ok (a : A)
| Raise (exn : Exn).
Arguments Ok {A} a.
Arguments Raise {A} exn.

Definition bind {A B : Type} (m : Exc A) (k : A -> Exc B) : Exc B :=
  match m with
  | Ok a => k a
  | Raise e => Raise e
  end.

Notation "x <- m ;; k" := (bind m (fun x => k))
  (at level 61, m at next level, right associativity).

(** [l[-n:]]: the last [n] items.  Python reads [-0] as [0], so [l[-0:]] is
    the whole list; a start before the beginning is clamped. *)
Definition slice_last {A : Type} (n : nat) (l : list A) : list A :=
  match n with
  | O => l
  | S _ => skipn (length l - n) l
  end.

(** [float(n)] for a non-negative int; exact below 2^53. *)
Definition float_of_nat (n : nat) : float :=
  PrimFloat.of_uint63 (Uint63.of_Z (Z.of_nat n)).

(** [a / b] on ints (true division): raises on a zero divisor, and is
    otherwise the correctly rounded quotient, which for operands below
    2^53 is the binary64 division of the two converted operands. *)
Definition py_truediv (a b : nat) : Exc float :=
  if Nat.eqb b 0 then Raise (mkExn "ZeroDivisionError" "division by zero")
  else Ok (PrimFloat.div (float_of_nat a) (float_of_nat b)).

(** [max(iterable, key=...)]: the running maximum is replaced only by a
    strictly greater item, so the first maximal item wins; raises on an
    empty iterable (the wording of that message varies between
    interpreter versions; nothing below depends on it). *)
Fixpoint max_loop {A : Type} (key : A -> nat) (best : A) (rest : list A) : A :=
  match rest with
  | [] => best
  | x :: rest' => max_loop key (if key best <? key x then x else best) rest'
  end.

Definition py_max {A : Type} (key : A -> nat) (l : list A) : Exc A :=
  match l with
  | [] => Raise (mkExn "ValueError" "max() arg is an empty sequence")
  | x :: rest => Ok (max_loop key x rest)
  end.

(** A [dict] with string keys: items are kept in insertion order, and
    assigning to an existing key keeps that key's position. *)
Definition Dict (V : Type) : Type := list (string * V).

Fixpoint dict_get {V : Type} (d : Dict V) (k : string) (default : V) : V :=
  match d with
  | [] => default
  | (k', v) :: d' => if String.eqb k' k then v else dict_get d' k default
  end.

Fixpoint dict_set {V : Type} (d : Dict V) (k : string) (v : V) : Dict V :=
  match d with
  | [] => [(k, v)]
  | (k', v') :: d' =>
      if String.eqb k' k then (k', v) :: d' else (k', v') :: dict_set d' k v
  end.

Definition keys {V : Type} (d : Dict V) : list string := map fst d.
Definition values {V : Type} (d : Dict V) : list V := map snd d.

(** ** The emotion history *)

(** One entry of [emotion_data]; [timestamp] is the clock instant whose
    ISO rendering the source stores. *)
Record Detection : Type := mkDetection {
  timestamp : nat;
  emotion : string;
  confidence : float
}.

Definition NO_FACE : string := "No face detected".

(** Lines 106-114: append, then keep only the last 100 records. *)
Definition append_record (emotion_data : list Detection) (r : Detection)
  : list Detection :=
  let emotion_data := emotion_data ++ [r] in
  if 100 <? length emotion_data then slice_last 100 emotion_data
  else emotion_data.

(** Lines 104-114 with their guard. *)
Definition store_emotion (emotion_data : list Detection)
    (now : nat) (emo : string) (conf : float) : list Detection :=
  if String.eqb emo NO_FACE then emotion_data
  else append_record emotion_data (mkDetection now emo conf).

(** [emotion_data[-n:]], the query behind [/api/emotions] (with [n = 20]). *)
Definition recent (n : nat) (emotion_data : list Detection) : list Detection :=
  slice_last n emotion_data.

Definition get_emotions (emotion_data : list Detection) : list Detection :=
  recent 20 emotion_data.

(** ** [/api/stats] *)

Inductive StatsJson : Type :=
| NoData (message : string)
| Stats (total_detections : nat)
        (emotion_counts : Dict nat)
        (emotion_percentages : Dict float)
        (most_common : option string).

(** Lines 186-189. *)
Definition count_step (emotion_counts : Dict nat) (record : Detection) : Dict nat :=
  dict_set emotion_counts (emotion record)
           (dict_get emotion_counts (emotion record) 0 + 1).

Definition count_emotions (emotion_data : list Detection) : Dict nat :=
  fold_left count_step emotion_data [].

(** [(count/total)*100] *)
Definition percentage (count total : nat) : Exc float :=
  q <- py_truediv count total ;; Ok (PrimFloat.mul q 100%float).

(** Lines 193-194: the dict comprehension, item by item. *)
Fixpoint percentages_loop (items : list (string * nat)) (total : nat)
    (acc : Dict float) : Exc (Dict float) :=
  match items with
  | [] => Ok acc
  | (emo, count) :: rest =>
      p <- percentage count total ;;
      percentages_loop rest total (dict_set acc emo p)
  end.

(** Line 200. *)
Definition most_common_of (emotion_counts : Dict nat) : Exc (option string) :=
  match emotion_counts with
  | [] => Ok None
  | _ :: _ => x <- py_max snd emotion_counts ;; Ok (Some (fst x))
  end.

Definition get_stats (emotion_data : list Detection) : Exc StatsJson :=
  match emotion_data with
  | [] => Ok (NoData "No data available")
  | _ :: _ =>
      let emotion_counts := count_emotions emotion_data in
      let total := length emotion_data in
      emotion_percentages <- percentages_loop emotion_counts total [] ;;
      most_common <- most_common_of emotion_counts ;;
      Ok (Stats total emotion_counts emotion_percentages most_common)
  end.

(** ** The camera, the clock and the analyzer *)

(** A frame is a grid of pixels; [cv2.flip(frame, 1)] mirrors every row. *)
Definition Frame : Type := list (list nat).

Definition flip (frame : Frame) : Frame := map (@rev nat) frame.

(** The analyzer, [detect_emotion_mock] in the source: Haar cascade plus
    random draws, or whatever is patched in its place.  Its outcome for a
    frame analysed at a given instant is an oracle; it may raise. *)
Definition Analyzer : Type := nat -> Frame -> Exc (Frame * string * float).

(** Exceptions that [except Exception] does not catch. *)
Definition base_only : list string :=
  ["KeyboardInterrupt"; "SystemExit"; "GeneratorExit"]%string.

Definition is_Exception (exn : Exn) : bool :=
  negb (existsb (String.eqb (exn_class exn)) base_only).

(** What [camera.read()] raises when [camera] is None. *)
Definition no_camera_error : Exn :=
  mkExn "AttributeError" "'NoneType' object has no attribute 'read'".

Fixpoint list_update {A : Type} (i : nat) (x : A) (l : list A) : list A :=
  match l, i with
  | [], _ => []
  | _ :: t, O => x :: t
  | y :: t, S i' => y :: list_update i' x t
  end.

(** The server: the four globals of the module, and the world they talk
    to.  A [cv2.VideoCapture] object is a handle into [captures]. *)
Record Server : Type := mkServer {
  camera : option nat;               (* the global [camera]; [None] is Python's None *)
  is_running : bool;
  emotion_data : list Detection;
  current_emotion : string;
  device_present : nat -> bool;      (* would [VideoCapture(i)] open? *)
  feed : list (option Frame);        (* outcomes of the coming reads; [None] = no frame *)
  captures : list bool;              (* every capture built so far: still open? *)
  open_calls : nat;                  (* captures that opened their device *)
  clock : nat;                       (* milliseconds *)
  stdout : list string
}.

Definition set_camera (c : option nat) (s : Server) : Server :=
  mkServer c (is_running s) (emotion_data s) (current_emotion s)
           (device_present s) (feed s) (captures s) (open_calls s)
           (clock s) (stdout s).

Definition set_is_running (b : bool) (s : Server) : Server :=
  mkServer (camera s) b (emotion_data s) (current_emotion s)
           (device_present s) (feed s) (captures s) (open_calls s)
           (clock s) (stdout s).

Definition set_emotion_data (d : list Detection) (s : Server) : Server :=
  mkServer (camera s) (is_running s) d (current_emotion s)
           (device_present s) (feed s) (captures s) (open_calls s)
           (clock s) (stdout s).

Definition set_current_emotion (e : string) (s : Server) : Server :=
  mkServer (camera s) (is_running s) (emotion_data s) e
           (device_present s) (feed s) (captures s) (open_calls s)
           (clock s) (stdout s).

Definition set_feed (f : list (option Frame)) (s : Server) : Server :=
  mkServer (camera s) (is_running s) (emotion_data s) (current_emotion s)
           (device_present s) f (captures s) (open_calls s)
           (clock s) (stdout s).

Definition set_captures (c : list bool) (n : nat) (s : Server) : Server :=
  mkServer (camera s) (is_running s) (emotion_data s) (current_emotion s)
           (device_present s) (feed s) c n (clock s) (stdout s).

Definition print (line : string) (s : Server) : Server :=
  mkServer (camera s) (is_running s) (emotion_data s) (current_emotion s)
           (device_present s) (feed s) (captures s) (open_calls s)
           (clock s) (stdout s ++ [line]).

(** [time.sleep] *)
Definition sleep (ms : nat) (s : Server) : Server :=
  mkServer (camera s) (is_running s) (emotion_data s) (current_emotion s)
           (device_present s) (feed s) (captures s) (open_calls s)
           (clock s + ms) (stdout s).

(** The module as loaded, lines 14-18. *)
Definition initial_server (present : nat -> bool) (f : list (option Frame))
  : Server :=
  mkServer None false [] NO_FACE present f [] 0 0 [].

(** [cv2.VideoCapture(i)]: a new capture object, open when the device is there. *)
Definition VideoCapture (i : nat) (s : Server) : nat * Server :=
  let opened := device_present s i in
  (length (captures s),
   set_captures (captures s ++ [opened])
                (if opened then open_calls s + 1 else open_calls s) s).

Definition isOpened (h : nat) (s : Server) : bool := nth h (captures s) false.

(** [cap.read()]: a released capture yields nothing; an open one yields what
    the device has next. *)
Definition cap_read (h : nat) (s : Server) : option Frame * Server :=
  if isOpened h s then
    match feed s with
    | [] => (None, s)
    | r :: rest => (r, set_feed rest s)
    end
  else (None, s).

(** [cap.release()]: safe on a capture that is already released. *)
Definition cap_release (h : nat) (s : Server) : Server :=
  set_captures (list_update h false (captures s)) (open_calls s) s.

(** Line 58, [camera = test_camera]: the global takes the new capture.
    The capture it named until then is referenced from nowhere else (the
    handlers and the generator reach it only through the global), so
    CPython destroys it on the spot, and the destructor of
    [cv2.VideoCapture] releases its device.  Rebinding to the same object
    destroys nothing. *)
Definition bind_camera (test_camera : nat) (s : Server) : Server :=
  let s :=
    match camera s with
    | Some old => if old =? test_camera then s else cap_release old s
    | None => s
    end in
  set_camera (Some test_camera) s.

Definition digit (i : nat) : string :=
  String (Ascii.ascii_of_nat (48 + i)) EmptyString.

(** Lines 53-71, the [for i in range(3)] loop and what follows it.  The
    [camera.set] calls are hints to the driver and leave no trace here. *)
Fixpoint try_cameras (indices : list nat) (s : Server) : bool * Server :=
  match indices with
  | [] => (false, print "No working camera found" s)
  | i :: rest =>
      let (test_camera, s) := VideoCapture i s in
      if isOpened test_camera s then
        let (ret, s) := cap_read test_camera s in
        match ret with
        | Some _ =>
            let s := bind_camera test_camera s in
            (true,
             print ("Camera initialized successfully on index " ++ digit i) s)
        | None => try_cameras rest (cap_release test_camera s)
        end
      else try_cameras rest (cap_release test_camera s)
  end.

(** Nothing in the body raises here, so the [except] arm of lines 72-74
    has no counterpart. *)
Definition initialize_camera (s : Server) : bool * Server :=
  try_cameras [0; 1; 2] s.

(** ** Request handlers *)

Record Reply : Type := mkReply { status : string; message : string }.

(** Lines 143-152. *)
Definition start (s : Server) : Reply * Server :=
  if negb (is_running s) then
    (mkReply "started" "Emotion detection started", set_is_running true s)
  else
    (mkReply "already_running" "Already running", s).

(** Lines 154-163. *)
Definition stop (s : Server) : Reply * Server :=
  let s := set_is_running false s in
  let s :=
    match camera s with
    | Some cam => set_camera None (cap_release cam s)
    | None => s
    end in
  (mkReply "stopped" "Emotion detection stopped", s).

(** Lines 165-172: [/api/status] *)
Definition get_status (s : Server) : bool * string * nat :=
  (is_running s, current_emotion s, length (emotion_data s)).

(** ** The frame generator *)

(** What a viewer receives for one frame: the image with its two overlays,
    to be JPEG-encoded between the multipart boundary lines. *)
Record Chunk : Type := mkChunk {
  image : Frame;
  status_line : string;
  clock_line : nat
}.

(** A generator object: not yet started, parked at its [yield] with the
    local [frame_count], or finished. *)
Inductive GenState : Type :=
| GenCreated
| GenSuspended (frame_count : nat)
| GenDone.

(** How one pass through the body of [while True] ends. *)
Inductive Flow : Type :=
| Yield (c : Chunk) (frame_count : nat)
| Break
| Raised (exn : Exn).

(** What [next(gen)] gives its caller. *)
Inductive Next : Type :=
| NextChunk (c : Chunk)
| StopIteration
| Propagated (exn : Exn).

Section Pipeline.

Variable detect_emotion : Analyzer.

(** Lines 99-114. *)
Definition analyse (frame_count : nat) (frame : Frame) (s : Server)
  : Exc (Frame * Server) :=
  if frame_count mod 5 =? 0 then
    r <- detect_emotion (clock s) frame ;;
    let '(frame, emo, conf) := r in
    let s := set_current_emotion emo s in
    Ok (frame,
        set_emotion_data (store_emotion (emotion_data s) (clock s) emo conf) s)
  else Ok (frame, s).

(** Lines 87-127: one pass, up to the [yield]. *)
Definition loop_body (frame_count : nat) (s : Server) : Flow * Server :=
  if negb (is_running s) then (Break, s)
  else
    match camera s with
    | None => (Raised no_camera_error, s)
    | Some cam =>
        let (r, s) := cap_read cam s in
        match r with
        | None => (Break, print "Failed to read frame" s)
        | Some frame =>
            let frame := flip frame in
            match analyse frame_count frame s with
            | Raise e => (Raised e, s)
            | Ok (frame, s) =>
                let frame_count := frame_count + 1 in
                (Yield (mkChunk frame (current_emotion s) (clock s))
                       frame_count, s)
            end
        end
    end.

(** Lines 133-135. *)
Definition finally_release (s : Server) : Server :=
  match camera s with
  | Some cam => cap_release cam s
  | None => s
  end.

(** Lines 85-135: the pass under its [try] / [except Exception] /
    [finally].  Line 132 prints [str(e)], the text of the exception. *)
Definition guarded_pass (frame_count : nat) (s : Server)
  : Next * GenState * Server :=
  match loop_body frame_count s with
  | (Yield c frame_count, s) => (NextChunk c, GenSuspended frame_count, s)
  | (Break, s) => (StopIteration, GenDone, finally_release s)
  | (Raised e, s) =>
      if is_Exception e then
        let s := print ("Error in generate_frames: " ++ exn_str e) s in
        (StopIteration, GenDone, finally_release s)
      else (Propagated e, GenDone, finally_release s)
  end.

(** [next] on the generator made by [generate_frames()]. *)
Definition gen_next (g : GenState) (s : Server) : Next * GenState * Server :=
  match g with
  | GenCreated =>
      let (ok, s) := initialize_camera s in
      if ok then guarded_pass 0 s else (StopIteration, GenDone, s)
  | GenSuspended frame_count => guarded_pass frame_count (sleep 33 s)
  | GenDone => (StopIteration, GenDone, s)
  end.

(** [gen.close()], what the server does when a viewer goes away: a
    parked generator gets [GeneratorExit] at its [yield], which
    [except Exception] lets through and [finally] answers by releasing
    the camera. *)
Definition gen_close (g : GenState) (s : Server) : GenState * Server :=
  match g with
  | GenSuspended _ => (GenDone, finally_release s)
  | _ => (GenDone, s)
  end.

(** [n] successive [next] calls on one generator, nothing in between. *)
Definition advance (gs : GenState * Server) : GenState * Server :=
  let '(_, g, s) := gen_next (fst gs) (snd gs) in (g, s).

Definition run (n : nat) (gs : GenState * Server) : GenState * Server :=
  Nat.iter n advance gs.

(** The chunks a viewer collects from [n] [next] calls. *)
Fixpoint stream (n : nat) (g : GenState) (s : Server) : list Chunk :=
  match n with
  | O => []
  | S n' =>
      match gen_next g s with
      | (NextChunk c, g', s') => c :: stream n' g' s'
      | (_, g', s') => stream n' g' s'
      end
  end.

(** States the server can be in between requests: any sequence of
    [start] and [stop] calls and of [next] and [close] calls on any
    generators. *)
Inductive reachable : Server -> Prop :=
| reach_init present f : reachable (initial_server present f)
| reach_start s : reachable s -> reachable (snd (start s))
| reach_stop s : reachable s -> reachable (snd (stop s))
| reach_next g s : reachable s -> reachable (snd (gen_next g s))
| reach_close g s : reachable s -> reachable (snd (gen_close g s)).

End Pipeline.

(** Is the bound [camera] holding its device? *)
Definition camera_open (s : Server) : bool :=
  match camera s with
  | Some cam => isOpened cam s
  | None => false
  end.

(** ** Vocabulary of the statements *)

(** How many records of the history carry label [l]. *)
Definition count_label (l : string) (data : list Detection) : nat :=
  length (filter (fun r => String.eqb (emotion r) l) data).

Definition Qsum (l : list Q) : Q := fold_right Qplus 0%Q l.

(** [count/total*100] over the rationals: the percentage that the floats
    approximate. *)
Definition pct (count total : nat) : Q :=
  (inject_Z (Z.of_nat count) / inject_Z (Z.of_nat total) * 100)%Q.

(** [(count/total)*100] as the code computes it, in binary64. *)
Definition fpct (count total : nat) : float :=
  PrimFloat.mul (PrimFloat.div (float_of_nat count) (float_of_nat total))
                100%float.

(** The rational a float stands for (0 for infinities and NaN, which
    [is_finite] rules out). *)
Definition is_finite (f : float) : bool :=
  match Prim2SF f with
  | S754_zero _ | S754_finite _ _ _ => true
  | _ => false
  end.

Definition float_value (f : float) : Q :=
  match Prim2SF f with
  | S754_finite sign m e =>
      let v := if (0 <=? e)%Z then inject_Z (Zpos m * 2 ^ e)
               else Zpos m # Pos.pow 2 (Z.to_pos (- e)) in
      if sign then Qopp v else v
  | _ => 0%Q
  end.

(** The tolerance on one percentage, 10^-12, and the check that a float
    percentage is within it. *)
Definition eps : Q := 1 # 1000000000000.

Definition pct_close (count total : nat) : bool :=
  is_finite (fpct count total) &&
  Qle_bool (Qabs (float_value (fpct count total) - pct count total)) eps.

(** All the percentages a history of at most 100 records can produce. *)
Definition pct_table_ok : bool :=
  forallb (fun total =>
             forallb (fun count => pct_close count total) (seq 0 (S total)))
          (seq 1 100).

(** Sample data for the worked instances. *)
Definition sample_events : list Detection :=
  map (fun i => mkDetection i "Happy" 0.9%float) (seq 0 150).

Definition sample_history : list Detection :=
  [ mkDetection 0 "Happy" 0.9%float; mkDetection 33 "Sad" 0.8%float;
    mkDetection 66 "Sad" 0.7%float; mkDetection 99 "Happy" 0.9%float ].

(** How many of the passes numbered [frame_count .. frame_count + n - 1]
    are analysis passes. *)
Definition analysed (frame_count n : nat) : nat :=
  length (filter (fun k => k mod 5 =? 0) (seq frame_count n)).

(** The two analyzer stubs of the end-to-end scenarios. *)
Definition happy_stub : Analyzer :=
  fun _ frame => Ok (frame, "Happy"%string, 0.9%float).

Definition failing_stub : Analyzer :=
  fun _ _ => Raise (mkExn "RuntimeError" "analyzer failed").

(** A camera on index 0 delivering [n] frames and then failing. *)
Definition blank : Frame := [[0; 0]; [0; 0]].

Definition camera_then_failure (n : nat) : Server :=
  initial_server (fun i => i =? 0) (repeat (Some blank) n ++ [None]).

(** What must hold between requests. *)
Definition server_inv (s : Server) : Prop :=
  (forall cam, camera s = Some cam -> cam < length (captures s)) /\
  (is_running s = false -> camera_open s = false) /\
  length (emotion_data s) <= 100.

(** The server right after a viewer asked for the feed without a
    preceding [start]: the generator opened a camera, saw that nothing is
    running and released it. *)
Definition idle_after_feed : Server :=
  snd (gen_next happy_stub GenCreated
         (initial_server (fun _ => true) [Some blank])).

(** "Two [start] calls open the camera once", as a predicate on the state
    they start from. *)
Definition start_twice_opens_once (s : Server) : Prop :=
  status (fst (start s)) = "started"%string /\
  status (fst (start (snd (start s)))) = "already_running"%string /\
  open_calls (snd (start (snd (start s)))) = open_calls s + 1.

(** The end-to-end read failure: [start], then a viewer pulling chunks from
    a camera that delivers ten frames (the first is consumed by the probe of
    [initialize_camera]) and then fails.  The tenth [next] hits the
    failure. *)
Definition before_read_failure : GenState * Server :=
  run happy_stub 9 (GenCreated, snd (start (camera_then_failure 10))).

Definition after_read_failure : GenState * Server :=
  run happy_stub 10 (GenCreated, snd (start (camera_then_failure 10))).

(** A started server with a working camera and plenty of frames. *)
Definition started_server : Server :=
  snd (start (initial_server (fun _ => true) (repeat (Some blank) 40))).

(** A record as the "Happy" stub produces them. *)
Definition is_happy (d : Detection) : Prop :=
  emotion d = "Happy"%string /\ confidence d = 0.9%float.

(** ** The mock analyzer *)

(** Line 25. *)
Definition emotions : list string :=
  ["Happy"; "Sad"; "Angry"; "Surprised"; "Neutral"; "Fear"; "Disgust"]%string.

(** A face rectangle [(x, y, w, h)]. *)
Definition Box : Type := (nat * nat * nat * nat)%type.

(** Lines 27-46.  What OpenCV and [random] contribute is given by oracles:
    the faces the cascade finds in a frame, the index [random.choice]
    draws below the length of its list, the float [random.uniform]
    returns, and what drawing one labelled rectangle does to a frame.  The
    draws depend on the instant of the call. *)
Definition detect_emotion_mock
    (detectMultiScale : Frame -> list Box)
    (randbelow : nat -> nat -> nat)
    (uniform : nat -> float -> float -> float)
    (draw_face : Frame -> Box -> string -> float -> Frame) : Analyzer :=
  fun now frame =>
    let faces := detectMultiScale frame in
    if 0 <? length faces then
      match nth_error emotions (randbelow now (length emotions)) with
      | None => Raise (mkExn "IndexError" "list index out of range")
      | Some emo =>
          let conf := uniform now 0.7%float 0.95%float in
          let frame :=
            fold_left (fun fr box => draw_face fr box emo conf) faces frame in
          Ok (frame, emo, conf)
      end
    else Ok (frame, NO_FACE, 0%float).

(** No capture is open but the one [camera] names. *)
Definition only_camera_open (s : Server) : Prop :=
  forall h, isOpened h s = true -> camera s = Some h.

(** A mock with one face in every frame and draws taken from the clock. *)
Definition sample_mock : Analyzer :=
  detect_emotion_mock (fun _ => [(0, 0, 1, 1)])
                      (fun now n => now mod n)
                      (fun _ a _ => a)
                      (fun fr _ _ _ => fr).

(** A started server on which a first viewer has pulled one chunk. *)
Definition one_viewer : Server :=
  snd (gen_next happy_stub GenCreated started_server).

(** The same after a second viewer has pulled its first chunk. *)
Definition two_viewers : Server :=
  snd (gen_next happy_stub GenCreated one_viewer).

(** * Properties *)

(** ** The history keeps the last 100 records *)

Lemma slice_last_skipn (A : Type) (n : nat) (l : list A) :
  0 < n -> slice_last n l = skipn (length l - n) l.
Proof. destruct n; [lia | reflexivity]. Qed.

Lemma slice_last_short (A : Type) (n : nat) (l : list A) :
  length l <= n -> slice_last n l = l.
Proof.
  intros H. destruct n; [reflexivity |].
  unfold slice_last. replace (length l - S n) with 0 by lia. reflexivity.
Qed.

Lemma append_record_skipn data r :
  append_record data r = skipn (length (data ++ [r]) - 100) (data ++ [r]).
Proof.
  unfold append_record.
  destruct (Nat.ltb_spec 100 (length (data ++ [r]))) as [H | H].
  - apply slice_last_skipn. lia.
  - replace (length (data ++ [r]) - 100) with 0 by lia. reflexivity.
Qed.

Lemma append_record_length data r : length (append_record data r) <= 100.
Proof. rewrite append_record_skipn, length_skipn. lia. Qed.

(** Trimming early does not change what survives a later trim. *)
Lemma trim_then_append (p : list Detection) (e : Detection) :
  append_record (skipn (length p - 100) p) e
  = skipn (length (p ++ [e]) - 100) (p ++ [e]).
Proof.
  rewrite append_record_skipn.
  destruct (Nat.le_gt_cases (length p) 100) as [H | H].
  - replace (length p - 100) with 0 by lia. reflexivity.
  - rewrite !length_app, length_skipn. cbn [length].
    replace (length p - (length p - 100) + 1 - 100) with 1 by lia.
    replace (length p + 1 - 100) with (1 + (length p - 100)) by lia.
    rewrite <- skipn_skipn, (skipn_app (length p - 100) p).
    replace (length p - 100 - length p) with 0 by lia. reflexivity.
Qed.

Lemma record_all_from (evs p : list Detection) :
  fold_left append_record evs (skipn (length p - 100) p)
  = skipn (length (p ++ evs) - 100) (p ++ evs).
Proof.
  revert p. induction evs as [| e evs IH]; intros p; cbn [fold_left].
  - now rewrite app_nil_r.
  - rewrite trim_then_append, IH, <- app_assoc. reflexivity.
Qed.

Lemma record_all (evs : list Detection) :
  fold_left append_record evs [] = skipn (length evs - 100) evs.
Proof. exact (record_all_from evs []). Qed.

Lemma store_emotion_length data now emo conf :
  length data <= 100 -> length (store_emotion data now emo conf) <= 100.
Proof.
  intros H. unfold store_emotion.
  destruct (String.eqb emo NO_FACE); [exact H | apply append_record_length].
Qed.

(** ** Dictionaries *)

Lemma dict_get_set (V : Type) (d : Dict V) (k l : string) (v def : V) :
  dict_get (dict_set d k v) l def
  = if String.eqb k l then v else dict_get d l def.
Proof.
  induction d as [| [k' v'] d IH]; cbn [dict_set dict_get].
  - reflexivity.
  - destruct (String.eqb_spec k' k) as [-> | Hk]; cbn [dict_get].
    + destruct (String.eqb k l); reflexivity.
    + rewrite IH. destruct (String.eqb_spec k' l) as [-> | Hl];
        [| reflexivity].
      destruct (String.eqb_spec k l) as [-> | _]; [congruence | reflexivity].
Qed.

Lemma keys_dict_set_old (V : Type) (d : Dict V) (k : string) (v : V) :
  In k (keys d) -> keys (dict_set d k v) = keys d.
Proof.
  induction d as [| [k' v'] d IH]; cbn; [tauto |].
  intros [-> | H].
  - rewrite String.eqb_refl. reflexivity.
  - destruct (String.eqb k' k); cbn; [reflexivity |].
    f_equal. apply IH, H.
Qed.

Lemma dict_set_new (V : Type) (d : Dict V) (k : string) (v : V) :
  ~ In k (keys d) -> dict_set d k v = d ++ [(k, v)].
Proof.
  induction d as [| [k' v'] d IH]; cbn; [reflexivity |].
  intros H. destruct (String.eqb_spec k' k) as [-> | _]; [tauto |].
  rewrite IH by tauto. reflexivity.
Qed.

Lemma keys_dict_set (V : Type) (d : Dict V) (k : string) (v : V) :
  keys (dict_set d k v)
  = if in_dec string_dec k (keys d) then keys d else keys d ++ [k].
Proof.
  destruct (in_dec string_dec k (keys d)) as [H | H].
  - apply keys_dict_set_old, H.
  - rewrite dict_set_new by exact H. unfold keys. now rewrite map_app.
Qed.

Lemma sum_dict_set (d : Dict nat) (k : string) :
  list_sum (values (dict_set d k (dict_get d k 0 + 1)))
  = list_sum (values d) + 1.
Proof.
  induction d as [| [k' v'] d IH]; cbn [dict_set dict_get]; [reflexivity |].
  unfold values, list_sum in *.
  destruct (String.eqb k' k); cbn [map snd fold_right] in *; lia.
Qed.

Lemma dict_get_In (V : Type) (d : Dict V) (k : string) (v def : V) :
  NoDup (keys d) -> In (k, v) d -> dict_get d k def = v.
Proof.
  induction d as [| [k' v'] d IH]; cbn [dict_get keys map fst In];
    [tauto |].
  intros Hnd [Heq | Hin].
  - inversion Heq; subst. now rewrite String.eqb_refl.
  - inversion Hnd as [| ? ? Hnotin Hnd']; subst.
    destruct (String.eqb_spec k' k) as [-> | _].
    + exfalso. apply Hnotin. change k with (fst (k, v)). now apply in_map.
    + apply IH; assumption.
Qed.

(** ** Counting labels *)

Lemma count_label_app l p q :
  count_label l (p ++ q) = count_label l p + count_label l q.
Proof. unfold count_label. now rewrite filter_app, length_app. Qed.

Lemma count_emotions_snoc p x :
  count_emotions (p ++ [x]) = count_step (count_emotions p) x.
Proof. unfold count_emotions. now rewrite fold_left_app. Qed.

Lemma count_emotions_get data l :
  dict_get (count_emotions data) l 0 = count_label l data.
Proof.
  induction data as [| x p IH] using rev_ind; [reflexivity |].
  rewrite count_emotions_snoc, count_label_app. unfold count_step.
  rewrite dict_get_set, <- IH. unfold count_label. cbn [filter].
  destruct (String.eqb_spec (emotion x) l) as [-> | _]; cbn [length]; lia.
Qed.

Lemma count_emotions_sum data :
  list_sum (values (count_emotions data)) = length data.
Proof.
  induction data as [| x p IH] using rev_ind; [reflexivity |].
  rewrite count_emotions_snoc, length_app. unfold count_step.
  rewrite sum_dict_set, IH. reflexivity.
Qed.

Lemma count_emotions_NoDup data : NoDup (keys (count_emotions data)).
Proof.
  induction data as [| x p IH] using rev_ind; [constructor |].
  rewrite count_emotions_snoc. unfold count_step. rewrite keys_dict_set.
  destruct (in_dec string_dec _ _) as [H | H]; [exact IH |].
  apply NoDup_app; [exact IH | |].
  - repeat constructor. intros [].
  - intros a Ha [<- | []]. contradiction.
Qed.

Lemma count_emotions_keys data x :
  In x data -> In (emotion x) (keys (count_emotions data)).
Proof.
  induction data as [| y p IH] using rev_ind; [intros [] |].
  rewrite count_emotions_snoc. unfold count_step. rewrite keys_dict_set.
  intros H. apply in_app_or in H.
  destruct (in_dec string_dec _ _) as [Hy | Hy].
  - destruct H as [H | [<- | []]]; [now apply IH | exact Hy].
  - apply in_or_app. destruct H as [H | [<- | []]];
      [left; now apply IH | right; now left].
Qed.

Lemma count_emotions_value data l c :
  In (l, c) (count_emotions data) -> c = count_label l data.
Proof.
  intros H. rewrite <- count_emotions_get.
  symmetry. apply dict_get_In; [apply count_emotions_NoDup | exact H].
Qed.

Lemma count_emotions_positive data l :
  In l (keys (count_emotions data)) -> 1 <= count_label l data.
Proof.
  induction data as [| x p IH] using rev_ind; [intros [] |].
  rewrite count_emotions_snoc, count_label_app. unfold count_step.
  rewrite keys_dict_set.
  destruct (in_dec string_dec _ _) as [Hx | Hx]; intros H.
  - specialize (IH H). lia.
  - apply in_app_or in H as [H | [<- | []]]; [specialize (IH H); lia |].
    unfold count_label at 2. cbn [filter]. rewrite String.eqb_refl.
    cbn [length]. lia.
Qed.

Lemma count_emotions_nonempty data :
  data <> [] -> count_emotions data <> [].
Proof.
  intros Hd Hc. pose proof (count_emotions_sum data) as Hs.
  rewrite Hc in Hs. destruct data; [congruence | discriminate].
Qed.

(** Keys appear in the order in which their labels first occur. *)
Lemma count_emotions_order data kpre l kpost :
  keys (count_emotions data) = kpre ++ l :: kpost ->
  exists p1 r p2,
    data = p1 ++ r :: p2 /\ emotion r = l /\
    forall x, In x p1 -> In (emotion x) kpre.
Proof.
  revert kpre l kpost.
  induction data as [| x p IH] using rev_ind; intros kpre l kpost.
  - destruct kpre; discriminate.
  - rewrite count_emotions_snoc. unfold count_step. rewrite keys_dict_set.
    destruct (in_dec string_dec _ _) as [Hx | Hx]; intros Hk.
    + destruct (IH _ _ _ Hk) as (p1 & r & p2 & -> & Hr & Hp1).
      exists p1, r, (p2 ++ [x]). rewrite <- app_assoc. auto.
    + destruct kpost as [| z kpost _] using rev_ind.
      * apply app_inj_tail in Hk as [<- <-].
        exists p, x, []. repeat split.
        intros y Hy. now apply count_emotions_keys.
      * rewrite app_comm_cons, app_assoc in Hk.
        apply app_inj_tail in Hk as [Hk _].
        destruct (IH _ _ _ Hk) as (p1 & r & p2 & -> & Hr & Hp1).
        exists p1, r, (p2 ++ [x]). rewrite <- app_assoc. auto.
Qed.

(** ** [max] returns the first maximal item *)

Lemma max_loop_spec (A : Type) (key : A -> nat) (rest pre mid : list A)
    (best : A) :
  (forall y, In y pre -> key y < key best) ->
  (forall y, In y mid -> key y <= key best) ->
  exists pre' post',
    pre ++ best :: mid ++ rest = pre' ++ max_loop key best rest :: post' /\
    (forall y, In y pre' -> key y < key (max_loop key best rest)) /\
    (forall y, In y post' -> key y <= key (max_loop key best rest)).
Proof.
  revert pre mid best.
  induction rest as [| x rest IH]; intros pre mid best Hpre Hmid;
    cbn [max_loop].
  - exists pre, mid. rewrite app_nil_r. auto.
  - destruct (Nat.ltb_spec (key best) (key x)) as [Hlt | Hge].
    + destruct (IH (pre ++ best :: mid) [] x) as (pre' & post' & E & H1 & H2).
      * intros y Hy. apply in_app_or in Hy as [Hy | [<- | Hy]].
        -- specialize (Hpre y Hy). lia.
        -- exact Hlt.
        -- specialize (Hmid y Hy). lia.
      * intros y [].
      * exists pre', post'. split; [| auto].
        rewrite <- E. cbn [app]. rewrite <- app_assoc. reflexivity.
    + destruct (IH pre (mid ++ [x]) best) as (pre' & post' & E & H1 & H2).
      * exact Hpre.
      * intros y Hy. apply in_app_or in Hy as [Hy | [<- | []]]; auto.
      * exists pre', post'. split; [| auto].
        rewrite <- E, <- app_assoc. reflexivity.
Qed.

Lemma py_max_spec (A : Type) (key : A -> nat) (l : list A) :
  l <> [] ->
  exists m pre post,
    py_max key l = Ok m /\ l = pre ++ m :: post /\
    (forall y, In y pre -> key y < key m) /\
    (forall y, In y post -> key y <= key m).
Proof.
  destruct l as [| x rest]; [congruence | intros _].
  destruct (@max_loop_spec A key rest [] [] x) as (pre & post & E & H1 & H2);
    [intros y [] | intros y [] |].
  exists (max_loop key x rest), pre, post. auto.
Qed.

(** ** Percentages *)

Lemma percentages_loop_ok items total acc :
  total <> 0 ->
  (forall k, In k (keys items) -> ~ In k (keys acc)) ->
  NoDup (keys items) ->
  percentages_loop items total acc
  = Ok (acc ++ map (fun kc => (fst kc, fpct (snd kc) total)) items).
Proof.
  intros Ht. revert acc.
  induction items as [| [k c] items IH]; intros acc Hdisj Hnd;
    cbn [percentages_loop map fst snd].
  - now rewrite app_nil_r.
  - unfold percentage, py_truediv.
    destruct (Nat.eqb_spec total 0) as [| _]; [contradiction |].
    cbn [bind]. inversion Hnd as [| ? ? Hk Hnd']; subst.
    rewrite dict_set_new by (apply Hdisj; now left).
    rewrite IH; [now rewrite <- app_assoc | | exact Hnd'].
    intros k' Hk' Hin. unfold keys in Hin. rewrite map_app in Hin.
    apply in_app_or in Hin as [Hin | [<- | []]].
    + apply (Hdisj k'); [now right | exact Hin].
    + contradiction.
Qed.

Lemma Qsum_pct (counts : Dict nat) (total : nat) :
  total <> 0 ->
  (Qsum (map (fun kc => pct (snd kc) total) counts)
   == pct (list_sum (values counts)) total)%Q.
Proof.
  intros Ht.
  assert (Hq : ~ (inject_Z (Z.of_nat total) == 0)%Q).
  { unfold Qeq. cbn. lia. }
  induction counts as [| [k c] counts IH]; unfold values, list_sum, pct in *;
    cbn [map snd fold_right Qsum] in *.
  - field. exact Hq.
  - rewrite IH, Nat2Z.inj_add, inject_Z_plus. field. exact Hq.
Qed.

Lemma pct_all (total : nat) : total <> 0 -> (pct total total == 100)%Q.
Proof.
  intros Ht. unfold pct. field. unfold Qeq. cbn. lia.
Qed.

(** Every percentage that a history of at most 100 records can produce
    has been checked against its exact value. *)
Lemma pct_table : pct_table_ok = true.
Proof. vm_compute. reflexivity. Qed.

Lemma pct_close_spec count total :
  0 < total -> count <= total -> total <= 100 ->
  is_finite (fpct count total) = true /\
  (Qabs (float_value (fpct count total) - pct count total) <= eps)%Q.
Proof.
  intros H0 Hc Ht. pose proof pct_table as T. unfold pct_table_ok in T.
  rewrite forallb_forall in T.
  assert (Hin : In total (seq 1 100)) by (apply in_seq; lia).
  specialize (T total Hin). rewrite forallb_forall in T.
  assert (Hin' : In count (seq 0 (S total))) by (apply in_seq; lia).
  specialize (T count Hin'). unfold pct_close in T.
  apply andb_prop in T as [T1 T2]. split; [exact T1 |].
  now apply Qle_bool_iff.
Qed.

Lemma filter_length_le (A : Type) (f : A -> bool) (l : list A) :
  length (filter f l) <= length l.
Proof.
  induction l as [| x l IH]; cbn; [lia |]. destruct (f x); cbn; lia.
Qed.

(** A dictionary of positive counts has no more keys than the counts add
    up to; for [count_emotions] every count is at least 1. *)
Lemma count_le_sum (d : Dict nat) :
  (forall k c, In (k, c) d -> 1 <= c) -> length d <= list_sum (values d).
Proof.
  unfold values, list_sum.
  induction d as [| [k c] d IH]; intros H; cbn [map snd fold_right length];
    [lia |].
  specialize (H k c (or_introl eq_refl)) as Hc.
  assert (IH' : length d <= fold_right Nat.add 0 (map snd d)).
  { apply IH. intros k' c' Hin. apply (H k' c'). now right. }
  lia.
Qed.

(** Summed exactly, floats that are each within [eps] of their exact
    percentage are within [n * eps] of the exact sum. *)
Lemma Qsum_close (total : nat) (counts : Dict nat) :
  0 < total -> total <= 100 ->
  (forall k c, In (k, c) counts -> c <= total) ->
  (Qabs (Qsum (map (fun kc => float_value (fpct (snd kc) total)) counts)
         - Qsum (map (fun kc => pct (snd kc) total) counts))
   <= inject_Z (Z.of_nat (length counts)) * eps)%Q.
Proof.
  intros H0 Ht.
  induction counts as [| [k c] counts IH]; intros Hc.
  - cbn. discriminate.
  - cbn [map snd Qsum fold_right length].
    assert (IH' := IH (fun k' c' Hin => Hc k' c' (or_intror Hin))).
    destruct (@pct_close_spec c total H0 (Hc k c (or_introl eq_refl)) Ht)
      as [_ Hclose].
    rewrite Nat2Z.inj_succ, <- Z.add_1_r, inject_Z_plus.
    apply Qabs_Qle_condition in IH'. apply Qabs_Qle_condition in Hclose.
    apply Qabs_Qle_condition.
    fold (Qsum (map (fun kc => float_value (fpct (snd kc) total)) counts)).
    fold (Qsum (map (fun kc => pct (snd kc) total) counts)).
    change (inject_Z 1) with 1%Q.
    destruct IH' as [I1 I2], Hclose as [C1 C2]. split; lra.
Qed.

Lemma get_stats_nonempty data :
  data <> [] ->
  exists l pre post,
    get_stats data
    = Ok (Stats (length data) (count_emotions data)
                (map (fun kc => (fst kc, fpct (snd kc) (length data)))
                     (count_emotions data))
                (Some l)) /\
    count_emotions data = pre ++ (l, count_label l data) :: post /\
    (forall y, In y pre -> snd y < count_label l data) /\
    (forall y, In y post -> snd y <= count_label l data).
Proof.
  intros Hd.
  destruct (py_max_spec snd (count_emotions_nonempty Hd))
    as ([l c] & pre & post & Hmax & E & Hpre & Hpost).
  assert (Hc : c = count_label l data).
  { apply count_emotions_value. rewrite E. apply in_elt. }
  subst c. exists l, pre, post. repeat split; try assumption.
  destruct data as [| x data]; [congruence |].
  unfold get_stats.
  rewrite percentages_loop_ok;
    [| cbn; lia | intros k _ [] | apply count_emotions_NoDup].
  cbn [bind app]. unfold most_common_of.
  destruct (count_emotions (x :: data)) eqn:Ec.
  - destruct pre; discriminate.
  - rewrite Hmax. reflexivity.
Qed.

(** ** Statistics *)

(** C6: on the empty history [get_stats] answers with the explicit
    empty-state message; the division of lines 193-194, which would raise
    on a zero total, is never reached with one, so no history at all makes
    [get_stats] raise. *)
Theorem stats_empty_no_division :
  get_stats [] = Ok (NoData "No data available") /\
  (forall count, percentage count (length (@nil Detection))
                 = Raise (mkExn "ZeroDivisionError" "division by zero")) /\
  (forall data, exists r, get_stats data = Ok r).
Proof.
  split; [reflexivity | split; [reflexivity |]].
  intros [| x data].
  - eexists. reflexivity.
  - destruct (@get_stats_nonempty (x :: data)) as (l & _ & _ & E & _);
      [discriminate |].
    eexists. exact E.
Qed.

(** C7: for a non-empty history (of at most 100 records, as every
    history is) the reply carries, for every label, the float
    [(count/total)*100] where [count] is the number of records with that
    label and [total] the length of the history.  Each of these floats is
    finite and within 10^-12 of the exact percentage; the exact
    percentages add up to 100, so the returned floats add up to 100 within
    10^-10. *)
Theorem stats_percentages_sum data :
  data <> [] -> length data <= 100 ->
  exists counts pcts mc,
    get_stats data = Ok (Stats (length data) counts pcts mc) /\
    counts = count_emotions data /\
    (forall l c, In (l, c) counts -> c = count_label l data) /\
    pcts = map (fun kc => (fst kc, fpct (snd kc) (length data))) counts /\
    (forall l p, In (l, p) pcts ->
       is_finite p = true /\
       (Qabs (float_value p - pct (count_label l data) (length data))
        <= eps)%Q) /\
    (Qsum (map (fun kc => pct (snd kc) (length data)) counts) == 100)%Q /\
    (Qabs (Qsum (map float_value (values pcts)) - 100) <= 100 * eps)%Q.
Proof.
  intros Hd Hlen.
  destruct (get_stats_nonempty Hd) as (l & _ & _ & E & _).
  assert (Ht : length data <> 0) by (destruct data; [congruence | discriminate]).
  assert (Hval : forall k c, In (k, c) (count_emotions data) ->
                             c = count_label k data)
    by (intros; now apply count_emotions_value).
  assert (Hle : forall k c, In (k, c) (count_emotions data) ->
                            c <= length data).
  { intros k c H. rewrite (Hval _ _ H). unfold count_label.
    apply filter_length_le. }
  eexists _, _, _. split; [exact E |].
  split; [reflexivity |]. split; [exact Hval |]. split; [reflexivity |].
  split; [| split].
  - intros k p Hin. apply in_map_iff in Hin as ([k' c] & Heq & Hin).
    cbn [fst snd] in Heq. inversion Heq; subst k' p.
    rewrite <- (Hval _ _ Hin).
    apply pct_close_spec; [lia | now apply (Hle k) | lia].
  - rewrite Qsum_pct by exact Ht.
    rewrite count_emotions_sum. apply pct_all, Ht.
  - unfold values. rewrite !map_map. cbn [snd].
    assert (Hs := @Qsum_close (length data) (count_emotions data)
                    ltac:(lia) Hlen Hle).
    assert (HB : (Qsum (map (fun kc => pct (snd kc) (length data))
                            (count_emotions data)) == 100)%Q).
    { rewrite Qsum_pct by exact Ht.
      rewrite count_emotions_sum. apply pct_all, Ht. }
    assert (Hn : (inject_Z (Z.of_nat (length (count_emotions data))) * eps
                  <= 100 * eps)%Q).
    { apply Qmult_le_compat_r; [| discriminate].
      assert (Hk : length (count_emotions data) <= length data).
      { rewrite <- (count_emotions_sum data). apply count_le_sum.
        intros k c Hin. rewrite (Hval _ _ Hin).
        apply count_emotions_positive. unfold keys.
        change k with (fst (k, c)). now apply in_map. }
      unfold Qle. cbn. lia. }
    apply Qabs_Qle_condition in Hs. apply Qabs_Qle_condition.
    destruct Hs as [S1 S2]. split; lra.
Qed.

Lemma stats_percentages_sum_witness :
  exists counts pcts mc,
    get_stats sample_history
    = Ok (Stats (length sample_history) counts pcts mc) /\
    counts = count_emotions sample_history /\
    (forall l c, In (l, c) counts -> c = count_label l sample_history) /\
    pcts = map (fun kc => (fst kc, fpct (snd kc) (length sample_history)))
               counts /\
    (forall l p, In (l, p) pcts ->
       is_finite p = true /\
       (Qabs (float_value p
              - pct (count_label l sample_history) (length sample_history))
        <= eps)%Q) /\
    (Qsum (map (fun kc => pct (snd kc) (length sample_history)) counts)
     == 100)%Q /\
    (Qabs (Qsum (map float_value (values pcts)) - 100) <= 100 * eps)%Q.
Proof.
  apply (@stats_percentages_sum sample_history); [discriminate | cbn; lia].
Defined.

(** In the sample both labels get exactly [50.0]. *)
Example sample_percentages :
  percentages_loop (count_emotions sample_history) 4 []
  = Ok [("Happy"%string, 50%float); ("Sad"%string, 50%float)].
Proof. vm_compute. reflexivity. Qed.

(** C8: for a non-empty history [most_common] is a label whose count no
    label exceeds, and among the labels with that count it is the one that
    occurs first in the history: every record before its first occurrence
    carries a label with a strictly smaller count. *)
Theorem most_common_first_max data :
  data <> [] ->
  exists counts pcts l,
    get_stats data = Ok (Stats (length data) counts pcts (Some l)) /\
    (forall l', count_label l' data <= count_label l data) /\
    exists p1 r p2,
      data = p1 ++ r :: p2 /\ emotion r = l /\
      forall x, In x p1 -> count_label (emotion x) data < count_label l data.
Proof.
  intros Hd.
  destruct (get_stats_nonempty Hd) as (l & pre & post & E & Hc & Hpre & Hpost).
  eexists _, _, l. split; [exact E |].
  assert (Hval : forall k c, In (k, c) (count_emotions data) ->
                             c = count_label k data)
    by (intros; now apply count_emotions_value).
  split.
  - intros l'.
    destruct (in_dec string_dec l' (keys (count_emotions data))) as [Hin | Hout].
    + apply in_map_iff in Hin as ([k c] & <- & Hin). cbn [fst].
      rewrite <- (Hval _ _ Hin). rewrite Hc in Hin.
      apply in_app_or in Hin as [Hin | [Heq | Hin]].
      * specialize (Hpre _ Hin). cbn in Hpre. lia.
      * inversion Heq. lia.
      * exact (Hpost _ Hin).
    + destruct (Nat.eq_dec (count_label l' data) 0) as [-> | Hpos]; [lia |].
      exfalso. apply Hout. unfold count_label in Hpos.
      destruct (filter _ data) as [| x xs] eqn:Ef; [now cbn in Hpos |].
      assert (Hx : In x (filter (fun r => String.eqb (emotion r) l') data))
        by (rewrite Ef; now left).
      apply filter_In in Hx as [Hx Hl]. apply String.eqb_eq in Hl as <-.
      now apply count_emotions_keys.
  - assert (Hk : keys (count_emotions data) = keys pre ++ l :: keys post).
    { rewrite Hc. unfold keys. now rewrite map_app. }
    destruct (count_emotions_order _ _ _ _ Hk) as (p1 & r & p2 & Ed & Hr & Hp1).
    exists p1, r, p2. repeat split; try assumption.
    intros x Hx. apply Hp1 in Hx.
    apply in_map_iff in Hx as ([k c] & Hkx & Hin). cbn [fst] in Hkx. subst k.
    assert (Hin' : In (emotion x, c) (count_emotions data))
      by (rewrite Hc; apply in_or_app; now left).
    rewrite <- (Hval _ _ Hin'). exact (Hpre _ Hin).
Qed.

Lemma most_common_first_max_witness :
  exists counts pcts l,
    get_stats sample_history
    = Ok (Stats (length sample_history) counts pcts (Some l)) /\
    (forall l', count_label l' sample_history <= count_label l sample_history) /\
    exists p1 r p2,
      sample_history = p1 ++ r :: p2 /\ emotion r = l /\
      forall x, In x p1 ->
        count_label (emotion x) sample_history < count_label l sample_history.
Proof. apply (@most_common_first_max sample_history). discriminate. Defined.

(** On a tie the label seen first wins, not the label that was first to
    reach the winning count: "Sad" has two records before "Happy" does. *)
Example most_common_tie :
  most_common_of (count_emotions sample_history) = Ok (Some "Happy"%string).
Proof. reflexivity. Qed.

(** C10: a non-empty history gives a non-empty count dictionary, so the
    [None] arm of line 200 is not taken: [most_common] is a label. *)
Theorem most_common_not_none data :
  data <> [] ->
  count_emotions data <> [] /\
  exists counts pcts l,
    get_stats data = Ok (Stats (length data) counts pcts (Some l)) /\
    most_common_of (count_emotions data) = Ok (Some l).
Proof.
  intros Hd. split; [now apply count_emotions_nonempty |].
  destruct (get_stats_nonempty Hd) as (l & pre & post & E & Hc & Hpre & Hpost).
  eexists _, _, l. split; [exact E |].
  destruct data as [| x data]; [congruence |].
  unfold get_stats in E.
  destruct (percentages_loop _ _ _); [| discriminate]. cbn [bind] in E.
  destruct (most_common_of _) as [[m |] | e]; cbn [bind] in E;
    try discriminate; congruence.
Qed.

Lemma most_common_not_none_witness :
  count_emotions sample_history <> [] /\
  exists counts pcts l,
    get_stats sample_history
    = Ok (Stats (length sample_history) counts pcts (Some l)) /\
    most_common_of (count_emotions sample_history) = Ok (Some l).
Proof. apply (@most_common_not_none sample_history). discriminate. Defined.

(** ** Captures *)

Lemma list_update_length (A : Type) (i : nat) (x : A) (l : list A) :
  length (list_update i x l) = length l.
Proof.
  revert i. induction l as [| y l IH]; intros [| i]; cbn; auto.
Qed.

Lemma list_update_nth (A : Type) (i j : nat) (x d : A) (l : list A) :
  nth j (list_update i x l) d
  = if (i =? j) && (i <? length l) then x else nth j l d.
Proof.
  revert i j. induction l as [| y l IH]; intros i j.
  - cbn [length]. replace (i <? 0) with false
      by (symmetry; apply Nat.ltb_ge; lia).
    rewrite andb_false_r. destruct i, j; reflexivity.
  - destruct i as [| i], j as [| j]; cbn; auto.
Qed.

Lemma list_update_same (A : Type) (i : nat) (d : A) (l : list A) :
  list_update i (nth i l d) l = l.
Proof.
  revert i. induction l as [| y l IH]; intros [| i]; cbn; auto.
  now rewrite IH.
Qed.

Lemma released_is_closed cam s : isOpened cam (cap_release cam s) = false.
Proof.
  unfold isOpened, cap_release. cbn [captures set_captures].
  rewrite list_update_nth, Nat.eqb_refl. cbn [andb].
  destruct (cam <? length (captures s)) eqn:E; [reflexivity |].
  apply nth_overflow. now apply Nat.ltb_ge in E.
Qed.

Lemma release_closed_noop cam s :
  isOpened cam s = false -> captures (cap_release cam s) = captures s.
Proof.
  unfold isOpened. intros H. cbn. rewrite <- H at 1.
  apply list_update_same.
Qed.

Lemma VideoCapture_isOpened i s :
  isOpened (fst (VideoCapture i s)) (snd (VideoCapture i s))
  = device_present s i.
Proof. unfold isOpened, VideoCapture. cbn. apply nth_middle. Qed.

Lemma isOpened_release cam h s :
  isOpened h (cap_release cam s)
  = if cam =? h then false else isOpened h s.
Proof.
  unfold isOpened, cap_release. cbn [captures set_captures].
  rewrite list_update_nth.
  destruct (Nat.eqb_spec cam h) as [-> | _]; [| reflexivity]. cbn [andb].
  destruct (h <? length (captures s)) eqn:E; [reflexivity |].
  apply nth_overflow. now apply Nat.ltb_ge in E.
Qed.

(** Rebinding [camera]: the capture it named, if it is another one, is
    released; nothing else changes. *)
Lemma bind_camera_frame new s :
  camera (bind_camera new s) = Some new /\
  is_running (bind_camera new s) = is_running s /\
  emotion_data (bind_camera new s) = emotion_data s /\
  current_emotion (bind_camera new s) = current_emotion s /\
  feed (bind_camera new s) = feed s /\
  open_calls (bind_camera new s) = open_calls s /\
  length (captures (bind_camera new s)) = length (captures s).
Proof.
  unfold bind_camera. destruct (camera s) as [old |];
    [destruct (old =? new) |]; cbn; rewrite ?list_update_length;
    repeat split.
Qed.

Lemma bind_camera_opened new s h :
  isOpened h (bind_camera new s)
  = match camera s with
    | Some old => if (old =? h) && negb (old =? new) then false
                  else isOpened h s
    | None => isOpened h s
    end.
Proof.
  unfold bind_camera. destruct (camera s) as [old |]; [| reflexivity].
  destruct (old =? new) eqn:E.
  - rewrite andb_false_r. reflexivity.
  - rewrite andb_true_r.
    change (isOpened h (set_camera (Some new) (cap_release old s)))
      with (isOpened h (cap_release old s)).
    apply isOpened_release.
Qed.

Lemma bind_camera_new_open n t :
  isOpened n t = true -> isOpened n (bind_camera n t) = true.
Proof.
  intros H. rewrite bind_camera_opened.
  destruct (camera t) as [old |]; [| exact H].
  destruct (old =? n); cbn [andb negb]; rewrite ?andb_false_r; exact H.
Qed.

Lemma bind_camera_no_reopen new s h :
  isOpened h (bind_camera new s) = true -> isOpened h s = true.
Proof.
  rewrite bind_camera_opened.
  destruct (camera s) as [old |]; [| auto].
  destruct ((old =? h) && negb (old =? new)); [discriminate | auto].
Qed.

(** What [try_cameras] can and cannot change. *)
Lemma try_cameras_frame indices s :
  let s' := snd (try_cameras indices s) in
  is_running s' = is_running s /\
  emotion_data s' = emotion_data s /\
  current_emotion s' = current_emotion s /\
  length (captures s) <= length (captures s') /\
  (forall h, h < length (captures s) ->
     (isOpened h s' = true -> isOpened h s = true) /\
     (camera s <> Some h -> isOpened h s' = isOpened h s)) /\
  (fst (try_cameras indices s) = false ->
   camera s' = camera s /\
   forall h, h < length (captures s) -> isOpened h s' = isOpened h s) /\
  (fst (try_cameras indices s) = true ->
   exists cam, camera s' = Some cam /\ cam < length (captures s') /\
               isOpened cam s' = true).
Proof.
  revert s. induction indices as [| i rest IH]; intros s; cbn zeta.
  - cbn. repeat split; auto; discriminate.
  - cbn [try_cameras]. unfold VideoCapture.
    match goal with
    | |- context [isOpened ?h ?t] =>
        assert (Hnew : isOpened h t = device_present s i)
          by apply (VideoCapture_isOpened i s)
    end.
    rewrite Hnew.
    assert (Hrec : forall t,
      is_running t = is_running s -> emotion_data t = emotion_data s ->
      current_emotion t = current_emotion s ->
      camera t = camera s ->
      length (captures t) = S (length (captures s)) ->
      (forall k, k < length (captures s) -> isOpened k t = isOpened k s) ->
      let s' := snd (try_cameras rest (cap_release (length (captures s)) t)) in
      is_running s' = is_running s /\
      emotion_data s' = emotion_data s /\
      current_emotion s' = current_emotion s /\
      length (captures s) <= length (captures s') /\
      (forall h, h < length (captures s) ->
         (isOpened h s' = true -> isOpened h s = true) /\
         (camera s <> Some h -> isOpened h s' = isOpened h s)) /\
      (fst (try_cameras rest (cap_release (length (captures s)) t)) = false ->
       camera s' = camera s /\
       forall h, h < length (captures s) -> isOpened h s' = isOpened h s) /\
      (fst (try_cameras rest (cap_release (length (captures s)) t)) = true ->
       exists cam, camera s' = Some cam /\ cam < length (captures s') /\
                   isOpened cam s' = true)).
    { intros t H1 H2 H3 H4 H5 H6.
      destruct (IH (cap_release (length (captures s)) t))
        as (I1 & I2 & I3 & I4 & I5 & I6 & I7).
      cbn zeta. cbn in I1, I2, I3, I4.
      change (length (captures (cap_release (length (captures s)) t)))
        with (length (list_update (length (captures s)) false (captures t)))
        in I5, I6.
      change (camera (cap_release (length (captures s)) t))
        with (camera t) in I5, I6.
      rewrite list_update_length in I4, I5, I6.
      assert (Hk : forall k, k < length (captures s) ->
                isOpened k (cap_release (length (captures s)) t)
                = isOpened k s).
      { intros k Hk. rewrite isOpened_release, <- (H6 k Hk).
        destruct (Nat.eqb_spec (length (captures s)) k); [lia | reflexivity]. }
      repeat split; try congruence; try lia.
      - intros Ho. rewrite <- (Hk h) by assumption.
        apply (I5 h); [lia | exact Ho].
      - intros Hc. rewrite <- (Hk h) by assumption.
        apply (I5 h); [lia | congruence].
      - rewrite (proj1 (I6 H)). exact H4.
      - intros h Hh. rewrite <- (Hk h Hh). apply (proj2 (I6 H)). lia.
      - exact I7. }
    assert (Hcap : forall b : bool,
              length (captures s ++ [b]) = S (length (captures s)))
      by (intros; rewrite length_app; cbn; lia).
    assert (Hold : forall b k, k < length (captures s) ->
                     nth k (captures s ++ [b]) false = isOpened k s)
      by (intros b k Hk; unfold isOpened; now apply app_nth1).
    destruct (device_present s i) eqn:Hp.
    + unfold cap_read. rewrite Hnew. cbn [feed set_captures].
      destruct (feed s) as [| [f |] fs] eqn:Hfeed; cbv beta iota.
      * apply Hrec; cbn; auto.
      * cbn [fst snd].
        match goal with
        | |- context [bind_camera ?n ?t] =>
            destruct (bind_camera_frame n t) as (B1 & B2 & B3 & B4 & _ & _ & B7);
            pose proof (bind_camera_opened n t) as Bo
        end.
        cbn [camera is_running emotion_data current_emotion captures
             set_feed set_captures] in B2, B3, B4, B7, Bo.
        rewrite length_app in B7. cbn [length] in B7.
        unfold isOpened in Bo |- *. cbn [captures set_feed set_captures print] in Bo |- *.
        cbn [camera is_running emotion_data current_emotion print].
        repeat split; try assumption; try lia; try discriminate.
        -- intros Ho. rewrite Bo in Ho.
           destruct (camera s) as [old |];
             [destruct ((old =? h) && negb (old =? length (captures s)));
              [discriminate |] |];
             rewrite Hold in Ho by assumption; exact Ho.
        -- intros Hc. rewrite Bo.
           destruct (camera s) as [old |]; [| now apply Hold].
           destruct (Nat.eqb_spec old h) as [-> | _]; [congruence |].
           cbn [andb]. now apply Hold.
        -- intros _. exists (length (captures s)).
           split; [exact B1 |]. split; [lia |].
           rewrite Bo.
           destruct (camera s) as [old |]; [| apply nth_middle].
           destruct (old =? length (captures s)); cbn [andb negb];
             rewrite ?andb_false_r; apply nth_middle.
      * apply Hrec; cbn; auto.
    + apply Hrec; cbn; auto.
Qed.

Lemma stop_state s :
  snd (stop s)
  = match camera s with
    | Some cam => set_camera None (cap_release cam (set_is_running false s))
    | None => set_is_running false s
    end.
Proof. reflexivity. Qed.

(** ** One pass of the generator *)

Lemma is_Exception_AttributeError : is_Exception no_camera_error = true.
Proof. reflexivity. Qed.

Lemma finally_release_closed s : camera_open (finally_release s) = false.
Proof.
  unfold camera_open, finally_release.
  destruct (camera s) as [cam |] eqn:Hc.
  - change (camera (cap_release cam s)) with (camera s). rewrite Hc.
    apply released_is_closed.
  - now rewrite Hc.
Qed.

Section PassFacts.

Variable detect_emotion : Analyzer.

Lemma analyse_frame fc frame s frame' s' :
  analyse detect_emotion fc frame s = Ok (frame', s') ->
  is_running s' = is_running s /\ camera s' = camera s /\
  captures s' = captures s /\ feed s' = feed s /\
  (length (emotion_data s) <= 100 -> length (emotion_data s') <= 100).
Proof.
  unfold analyse. destruct (fc mod 5 =? 0).
  - destruct (detect_emotion (clock s) frame) as [[[f e] c] | exn];
      cbn [bind]; [| discriminate].
    intros H. inversion H; subst. cbn. repeat split.
    apply store_emotion_length.
  - intros H. inversion H; subst. auto.
Qed.

(** What a pass can and cannot change. *)
Lemma guarded_pass_frame fc s :
  let s' := snd (guarded_pass detect_emotion fc s) in
  is_running s' = is_running s /\ camera s' = camera s /\
  length (captures s') = length (captures s) /\
  (length (emotion_data s) <= 100 -> length (emotion_data s') <= 100) /\
  (is_running s = false -> camera_open s' = false).
Proof.
  cbn zeta. unfold guarded_pass, loop_body.
  destruct (is_running s) eqn:Hrun; cbn [negb].
  - assert (Hfin : forall t,
      is_running t = true -> camera t = camera s ->
      length (captures t) = length (captures s) ->
      (length (emotion_data s) <= 100 -> length (emotion_data t) <= 100) ->
      is_running (finally_release t) = true /\
      camera (finally_release t) = camera s /\
      length (captures (finally_release t)) = length (captures s) /\
      (length (emotion_data s) <= 100 ->
       length (emotion_data (finally_release t)) <= 100) /\
      (true = false -> camera_open (finally_release t) = false)).
    { intros t H1 H2 H3 H4. unfold finally_release.
      destruct (camera t) as [cam |] eqn:Hc; cbn;
        rewrite ?list_update_length; repeat split; auto; try congruence. }
    destruct (camera s) as [cam |] eqn:Hcam.
    + unfold cap_read.
      destruct (isOpened cam s);
        [destruct (feed s) as [| [f |] rest] |]; cbv beta iota;
        try (apply Hfin; cbn; auto).
      destruct (analyse detect_emotion fc (flip f) (set_feed rest s))
        as [[f' t] | exn] eqn:Ha.
      * apply analyse_frame in Ha as (A1 & A2 & A3 & A4 & A5).
        cbn in *. repeat split; try congruence. exact A5.
      * destruct (is_Exception exn); cbv beta iota zeta;
          apply Hfin; cbn; auto.
    + rewrite is_Exception_AttributeError. cbv beta iota zeta.
      apply Hfin; cbn; auto.
  - cbn [snd]. unfold finally_release at 1 2 3 4.
    destruct (camera s) as [cam |] eqn:Hc; cbn;
      rewrite ?list_update_length; repeat split; auto.
    + intros _. apply finally_release_closed.
    + intros _. apply finally_release_closed.
Qed.

Lemma gen_next_inv g s :
  server_inv s -> server_inv (snd (gen_next detect_emotion g s)).
Proof.
  intros (I1 & I2 & I3). destruct g as [| fc |]; cbn [gen_next].
  - unfold initialize_camera.
    pose proof (try_cameras_frame [0; 1; 2] s) as T. cbn zeta in T.
    destruct (try_cameras [0; 1; 2] s) as [ok t]. cbn [fst snd] in T.
    destruct T as (T1 & T2 & T3 & T4 & T5 & T6 & T7).
    destruct ok.
    + destruct (T7 eq_refl) as (cam & Hc & Hlt & Hop).
      pose proof (guarded_pass_frame 0 t) as P. cbn zeta in P.
      destruct P as (P1 & P2 & P3 & P4 & P5).
      repeat split.
      * intros c Hc'. rewrite P2, Hc in Hc'. inversion Hc'; subst. lia.
      * intros Hr. apply P5. congruence.
      * apply P4. congruence.
    + cbn [snd]. destruct (T6 eq_refl) as (T6c & T6o). repeat split.
      * intros c Hc. rewrite T6c in Hc. specialize (I1 c Hc). lia.
      * intros Hr. rewrite T1 in Hr. specialize (I2 Hr).
        unfold camera_open in *. rewrite T6c.
        destruct (camera s) as [c |] eqn:Hc; [| reflexivity].
        rewrite T6o; [exact I2 | now apply I1].
      * congruence.
  - pose proof (guarded_pass_frame fc (sleep 33 s)) as P. cbn zeta in P.
    destruct P as (P1 & P2 & P3 & P4 & P5). cbn in P1, P2, P3, P4, P5.
    repeat split.
    + intros c Hc. rewrite P2 in Hc. rewrite P3. now apply I1.
    + intros Hr. apply P5. congruence.
    + now apply P4.
  - cbn [snd]. repeat split; assumption.
Qed.

(** Between requests the invariant holds. *)
Lemma reachable_inv s : reachable detect_emotion s -> server_inv s.
Proof.
  induction 1 as [present f | s _ IH | s _ IH | g s _ IH | g s _ IH].
  - repeat split; cbn; try discriminate; auto. lia.
  - destruct IH as (I1 & I2 & I3). unfold start.
    destruct (is_running s) eqn:Hr; cbv beta iota delta [negb snd].
    + repeat split; auto. congruence.
    + repeat split; cbn; auto.
  - destruct IH as (I1 & I2 & I3). rewrite stop_state.
    destruct (camera s) as [cam |] eqn:Hc; unfold server_inv, camera_open;
      cbn; rewrite ?Hc; repeat split; auto; discriminate.
  - now apply gen_next_inv.
  - destruct g; cbn [gen_close snd]; try exact IH.
    destruct IH as (I1 & I2 & I3). repeat split.
    + intros cam Hc. unfold finally_release in *.
      destruct (camera s) as [c |] eqn:Hs; cbn in *;
        rewrite ?list_update_length; rewrite ?Hs in Hc; auto.
    + intros _. apply finally_release_closed.
    + unfold finally_release. destruct (camera s); exact I3.
Qed.

End PassFacts.

(** ** History bound *)

(** C1: the history never holds more than 100 records -- after any record
    operation, and in every state the server can reach -- and recording
    150 events one after the other leaves exactly the last 100 of them, in
    the order in which they were recorded, which is also what the
    last-100 query [emotion_data[-100:]] returns. *)
Theorem history_bounded_fifo :
  (forall data r, length (append_record data r) <= 100) /\
  (forall detect s, reachable detect s -> length (emotion_data s) <= 100) /\
  (forall evs, length evs = 150 ->
     fold_left append_record evs [] = skipn 50 evs /\
     recent 100 (fold_left append_record evs []) = skipn 50 evs /\
     length (recent 100 (fold_left append_record evs [])) = 100).
Proof.
  split; [exact append_record_length |].
  split; [intros detect s H; now apply (reachable_inv H) |].
  intros evs Hlen.
  assert (E : fold_left append_record evs [] = skipn 50 evs).
  { rewrite record_all, Hlen. reflexivity. }
  assert (L : length (skipn 50 evs) = 100) by (rewrite length_skipn; lia).
  rewrite E. unfold recent. rewrite slice_last_short by lia. auto.
Qed.

Lemma history_bounded_fifo_witness :
  fold_left append_record sample_events [] = skipn 50 sample_events /\
  recent 100 (fold_left append_record sample_events [])
  = skipn 50 sample_events /\
  length (recent 100 (fold_left append_record sample_events [])) = 100.
Proof.
  exact (proj2 (proj2 history_bounded_fifo) sample_events eq_refl).
Defined.

(** ** [start] and [stop] *)

Lemma initialize_camera_opens s f rest :
  device_present s 0 = true -> feed s = Some f :: rest ->
  fst (initialize_camera s) = true /\
  open_calls (snd (initialize_camera s)) = open_calls s + 1 /\
  camera (snd (initialize_camera s)) = Some (length (captures s)) /\
  camera_open (snd (initialize_camera s)) = true /\
  feed (snd (initialize_camera s)) = rest.
Proof.
  intros Hp Hf. unfold initialize_camera. cbn [try_cameras].
  pose proof (VideoCapture_isOpened 0 s) as Hnew.
  unfold VideoCapture in *. cbn [fst snd] in Hnew.
  rewrite Hnew. rewrite Hp in *. unfold cap_read. rewrite Hnew.
  cbn [feed set_captures]. rewrite Hf. cbv beta iota zeta. cbn [fst snd].
  match goal with
  | |- context [bind_camera ?n ?t] =>
      destruct (bind_camera_frame n t) as (B1 & _ & _ & _ & B5 & B6 & _);
      pose proof (bind_camera_opened n t n) as Bo
  end.
  unfold camera_open.
  cbn [camera feed open_calls captures print set_feed set_captures]
    in B5, B6, Bo |- *.
  unfold isOpened in Bo |- *.
  cbn [camera feed open_calls captures print set_feed set_captures]
    in Bo |- *.
  rewrite B1, B5, B6, Bo.
  split; [reflexivity |]. split; [reflexivity |]. split; [reflexivity |].
  split; [| reflexivity].
  destruct (camera s) as [old |]; [| apply nth_middle].
  destruct (old =? length (captures s)); cbn [andb negb];
    rewrite ?andb_false_r; apply nth_middle.
Qed.

(** C2, as the code has it: from a state that is not running, [start]
    answers "started" and does nothing but set [is_running]; the [start]
    that follows answers "already_running" (as does the second of any two
    consecutive calls) and changes nothing.  Neither call touches the
    camera: no capture is built, opened or bound.  The camera is opened by
    [initialize_camera], the first thing a generator of [/api/video_feed]
    does when it is first advanced. *)
Theorem start_twice_no_open (detect : Analyzer) (s : Server) :
  is_running s = false ->
  let s1 := snd (start s) in
  let s2 := snd (start s1) in
  status (fst (start s)) = "started"%string /\
  status (fst (start s1)) = "already_running"%string /\
  (forall t, status (fst (start (snd (start t)))) = "already_running"%string) /\
  s1 = set_is_running true s /\ s2 = s1 /\
  open_calls s2 = open_calls s /\ captures s2 = captures s /\
  camera s2 = camera s /\
  gen_next detect GenCreated s2
  = (let (ok, s3) := initialize_camera s2 in
     if ok then guarded_pass detect 0 s3 else (StopIteration, GenDone, s3)) /\
  (forall f rest, device_present s 0 = true -> feed s = Some f :: rest ->
     fst (initialize_camera s2) = true /\
     open_calls (snd (initialize_camera s2)) = open_calls s + 1 /\
     camera_open (snd (initialize_camera s2)) = true).
Proof.
  intros Hr. cbn zeta. unfold start. rewrite Hr. cbn.
  repeat split.
  - intros t. destruct (is_running t) eqn:Ht; cbn; rewrite ?Ht; reflexivity.
  - apply (@initialize_camera_opens (set_is_running true s) f rest);
      assumption.
  - apply (@initialize_camera_opens (set_is_running true s) f rest);
      assumption.
  - apply (@initialize_camera_opens (set_is_running true s) f rest);
      assumption.
Qed.

Lemma start_twice_no_open_witness :
  let s := initial_server (fun _ => true) [Some blank] in
  status (fst (start s)) = "started"%string /\
  status (fst (start (snd (start s)))) = "already_running"%string /\
  open_calls (snd (start (snd (start s)))) = open_calls s /\
  camera (snd (start (snd (start s)))) = None.
Proof.
  pose proof (@start_twice_no_open happy_stub
                (initial_server (fun _ => true) [Some blank]) eq_refl)
    as (H1 & H2 & _ & _ & _ & H3 & _ & H4 & _).
  cbn zeta. repeat split; assumption.
Defined.

(** C2 as stated fails on the freshly loaded server: the two calls answer
    "started" then "already_running", but no camera has been opened, and
    none is bound.  Called on a running server, the first call does not
    answer "started" either. *)
Lemma start_twice_opens_nothing :
  status (fst (start (initial_server (fun _ => true) [Some blank])))
  = "started"%string /\
  open_calls
    (snd (start (snd (start (initial_server (fun _ => true) [Some blank])))))
  = 0 /\
  camera
    (snd (start (snd (start (initial_server (fun _ => true) [Some blank])))))
  = None /\
  ~ start_twice_opens_once (initial_server (fun _ => true) [Some blank]) /\
  ~ start_twice_opens_once
      (snd (start (initial_server (fun _ => true) [Some blank]))).
Proof.
  repeat split; try reflexivity.
  - intros (_ & _ & H). discriminate H.
  - intros (H & _). discriminate H.
Qed.

(** C5: [stop] always answers "stopped" (it is a total function: nothing
    in it can raise), and calling it twice gives the same answer and the
    same state as calling it once: not running, no camera bound, the
    camera released.  On a server that is not running it is a no-op: the
    camera it may still name is already released, so apart from dropping
    that stale name nothing changes -- the same captures, history, label
    and status -- and with no camera bound the state is untouched. *)
Theorem stop_idempotent (detect : Analyzer) (s : Server) :
  reachable detect s ->
  let s1 := snd (stop s) in
  status (fst (stop s)) = "stopped"%string /\
  (is_running s = false ->
     camera_open s = false /\ s1 = set_camera None s /\
     (camera s = None -> s1 = s) /\ get_status s1 = get_status s) /\
  stop s1 = stop s /\
  is_running s1 = false /\ camera s1 = None /\ camera_open s1 = false /\
  (forall cam, camera s = Some cam -> isOpened cam s1 = false).
Proof.
  intros Hreach. destruct (reachable_inv Hreach) as (_ & I2 & _).
  cbn zeta. split; [reflexivity |]. split.
  - intros Hr. specialize (I2 Hr). split; [exact I2 |].
    rewrite stop_state. unfold camera_open in I2.
    destruct s as [c r d e p f caps n t out]. cbn in *. subst r.
    destruct c as [cam |]; cbn.
    + unfold cap_release, set_camera, set_captures. cbn.
      pose proof (release_closed_noop cam
        (mkServer (Some cam) false d e p f caps n t out) I2) as Hcaps.
      cbn in Hcaps. rewrite Hcaps. repeat split. discriminate.
    + repeat split.
  - unfold stop, camera_open. cbn [camera set_is_running].
    destruct (camera s) as [cam |] eqn:Hc; cbn; rewrite ?Hc;
      repeat split; try discriminate.
    intros cam' Hcam'. inversion Hcam'; subst.
    apply (released_is_closed cam' (set_is_running false s)).
Qed.

Lemma stop_idempotent_witness :
  is_running idle_after_feed = false /\
  camera idle_after_feed = Some 0 /\
  status (fst (stop idle_after_feed)) = "stopped"%string /\
  snd (stop idle_after_feed) = set_camera None idle_after_feed /\
  stop (snd (stop idle_after_feed)) = stop idle_after_feed.
Proof.
  assert (R : reachable happy_stub idle_after_feed)
    by (apply reach_next, reach_init).
  pose proof (stop_idempotent R) as (H1 & H2 & H3 & _).
  destruct (H2 eq_refl) as (_ & H4 & _).
  repeat split; assumption.
Defined.

(** ** Failures inside the loop *)

Lemma cap_read_frame h s :
  camera (snd (cap_read h s)) = camera s /\
  is_running (snd (cap_read h s)) = is_running s /\
  captures (snd (cap_read h s)) = captures s /\
  emotion_data (snd (cap_read h s)) = emotion_data s /\
  current_emotion (snd (cap_read h s)) = current_emotion s /\
  stdout (snd (cap_read h s)) = stdout s.
Proof.
  unfold cap_read. destruct (isOpened h s); [| repeat split].
  destruct (feed s); repeat split.
Qed.

Lemma stream_done detect n s : stream detect n GenDone s = [].
Proof. induction n as [| n IH]; [reflexivity | exact IH]. Qed.

(** C3, as the code has it: when the read of a running generator yields
    no frame, the pass logs the failure and leaves the loop; the [finally]
    clause releases the camera; the generator is finished and its [next]
    ends with [StopIteration], no exception.  [is_running] is not written
    by the generator: it stays true (and [camera] still names the released
    capture) until somebody calls [stop]. *)
Theorem read_failure_stops (detect : Analyzer) (fc : nat) (s : Server)
    (cam : nat) :
  is_running s = true -> camera s = Some cam ->
  fst (cap_read cam s) = None ->
  let r := gen_next detect (GenSuspended fc) s in
  fst r = (StopIteration, GenDone) /\
  isOpened cam (snd r) = false /\ camera_open (snd r) = false /\
  camera (snd r) = Some cam /\
  is_running (snd r) = true /\
  emotion_data (snd r) = emotion_data s /\
  current_emotion (snd r) = current_emotion s /\
  stdout (snd r) = stdout s ++ ["Failed to read frame"%string] /\
  (forall n, stream detect n GenDone (snd r) = []).
Proof.
  intros Hr Hc Hread. cbn zeta.
  assert (E : gen_next detect (GenSuspended fc) s
              = (StopIteration, GenDone,
                 finally_release
                   (print "Failed to read frame"
                          (snd (cap_read cam (sleep 33 s)))))).
  { cbn [gen_next]. unfold guarded_pass, loop_body.
    cbn [is_running camera sleep]. rewrite Hr, Hc. cbn [negb].
    unfold cap_read in *. unfold isOpened in *. cbn [captures feed sleep].
    destruct (nth cam (captures s) false); [| reflexivity].
    destruct (feed s) as [| [f |] rest]; [reflexivity | discriminate |].
    reflexivity. }
  rewrite E. cbn [fst snd].
  destruct (cap_read_frame cam (sleep 33 s)) as (R1 & R2 & R3 & R4 & R5 & R6).
  cbn [camera is_running emotion_data current_emotion stdout sleep]
    in R1, R2, R3, R4, R5, R6.
  unfold finally_release, camera_open. cbn [camera print].
  rewrite R1, Hc.
  change (camera (cap_release cam ?t)) with (camera t).
  cbn [camera print]. rewrite R1, Hc.
  rewrite released_is_closed.
  change (is_running (cap_release cam ?t)) with (is_running t).
  change (emotion_data (cap_release cam ?t)) with (emotion_data t).
  change (current_emotion (cap_release cam ?t)) with (current_emotion t).
  change (stdout (cap_release cam ?t)) with (stdout t).
  cbn [is_running emotion_data current_emotion stdout print].
  rewrite R2, R4, R5, R6, Hr. repeat split. intros n. apply stream_done.
Qed.

Lemma read_failure_stops_witness :
  fst (gen_next happy_stub (fst before_read_failure) (snd before_read_failure))
  = (StopIteration, GenDone) /\
  camera_open
    (snd (gen_next happy_stub (GenSuspended 9) (snd before_read_failure)))
  = false /\
  is_running
    (snd (gen_next happy_stub (GenSuspended 9) (snd before_read_failure)))
  = true.
Proof.
  pose proof (@read_failure_stops happy_stub 9 (snd before_read_failure) 0
                eq_refl eq_refl eq_refl) as (H1 & _ & H2 & _ & H3 & _).
  repeat split; assumption.
Defined.

(** C3 as stated fails in the end-to-end run: the loop has stopped and the
    camera is released, but [is_running] is still true, and [/api/status]
    keeps reporting a running pipeline. *)
Lemma read_failure_keeps_running :
  fst after_read_failure = GenDone /\
  camera_open (snd after_read_failure) = false /\
  is_running (snd after_read_failure) = true /\
  fst (fst (get_status (snd after_read_failure))) = true.
Proof. repeat split. Qed.

(** A pass whose analysis raises: the [except Exception] clause logs
    [str(e)] and the [finally] clause releases the camera. *)
Lemma guarded_pass_raise detect fc s cam f rest exn :
  is_running s = true -> camera s = Some cam -> isOpened cam s = true ->
  feed s = Some f :: rest -> fc mod 5 = 0 ->
  detect (clock s) (flip f) = Raise exn -> is_Exception exn = true ->
  guarded_pass detect fc s
  = (StopIteration, GenDone,
     finally_release
       (print ("Error in generate_frames: " ++ exn_str exn)
              (set_feed rest s))).
Proof.
  intros Hr Hc Ho Hf Hm Hd He.
  unfold guarded_pass, loop_body. rewrite Hr, Hc. cbn [negb].
  unfold cap_read. rewrite Ho, Hf. cbv beta iota. unfold analyse. rewrite Hm.
  cbn [Nat.eqb clock set_feed]. rewrite Hd. cbn [bind]. rewrite He.
  reflexivity.
Qed.

Lemma raise_outcome s cam rest line :
  is_running s = true -> camera s = Some cam ->
  let t := finally_release (print line (set_feed rest s)) in
  emotion_data t = emotion_data s /\
  current_emotion t = current_emotion s /\
  isOpened cam t = false /\
  is_running t = true /\
  feed t = rest /\
  stdout t = stdout s ++ [line].
Proof.
  intros Hr Hc. cbn zeta. unfold finally_release.
  cbn [camera print set_feed]. rewrite Hc.
  rewrite released_is_closed.
  repeat split; try (cbn; assumption).
Qed.

(** C4, as the code has it: the analyzer is called inside the [try] that
    wraps the whole loop, so when it raises on an analysis pass the
    [except Exception] clause of the generator catches the error, logs
    its text ([str(e)]), and the loop is over: the camera is released, the
    generator is finished and yields no further chunk.  No exception
    reaches the caller, nothing is recorded for that pass and the label is
    left as it was.  This holds on every analysis pass of a resumed
    generator (frame count a multiple of 5) and on the very first pass,
    the one a fresh generator makes right after [initialize_camera]. *)
Theorem analyzer_failure_stops (detect : Analyzer) :
  (forall (fc : nat) (s : Server) (cam : nat) (f : Frame)
          (rest : list (option Frame)) (exn : Exn),
     is_running s = true -> camera s = Some cam -> isOpened cam s = true ->
     feed s = Some f :: rest -> fc mod 5 = 0 ->
     detect (clock s + 33) (flip f) = Raise exn -> is_Exception exn = true ->
     let r := gen_next detect (GenSuspended fc) s in
     fst r = (StopIteration, GenDone) /\
     emotion_data (snd r) = emotion_data s /\
     current_emotion (snd r) = current_emotion s /\
     isOpened cam (snd r) = false /\
     is_running (snd r) = true /\
     feed (snd r) = rest /\
     stdout (snd r)
     = stdout s ++ [("Error in generate_frames: " ++ exn_str exn)%string] /\
     (forall n, stream detect n GenDone (snd r) = [])) /\
  (forall (s0 s : Server) (cam : nat) (f : Frame)
          (rest : list (option Frame)) (exn : Exn),
     is_running s0 = true -> initialize_camera s0 = (true, s) ->
     camera s = Some cam -> feed s = Some f :: rest ->
     detect (clock s) (flip f) = Raise exn -> is_Exception exn = true ->
     let r := gen_next detect GenCreated s0 in
     fst r = (StopIteration, GenDone) /\
     emotion_data (snd r) = emotion_data s0 /\
     current_emotion (snd r) = current_emotion s0 /\
     isOpened cam (snd r) = false /\
     camera_open (snd r) = false /\
     is_running (snd r) = true /\
     feed (snd r) = rest /\
     stdout (snd r)
     = stdout s ++ [("Error in generate_frames: " ++ exn_str exn)%string] /\
     (forall n, stream detect n GenDone (snd r) = [])).
Proof.
  split.
  - intros fc s cam f rest exn Hr Hc Ho Hf Hm Hd He. cbn zeta.
    cbn [gen_next].
    rewrite (@guarded_pass_raise detect fc (sleep 33 s) cam f rest exn
               Hr Hc Ho Hf Hm Hd He).
    cbn [fst snd].
    destruct (@raise_outcome (sleep 33 s) cam rest
                ("Error in generate_frames: " ++ exn_str exn) Hr Hc)
      as (O1 & O2 & O3 & O4 & O5 & O6).
    split; [reflexivity |].
    split; [exact O1 |]. split; [exact O2 |]. split; [exact O3 |].
    split; [exact O4 |]. split; [exact O5 |]. split; [exact O6 |].
    intros n. apply stream_done.
  - intros s0 s cam f rest exn Hr Hi Hc Hf Hd He. cbn zeta.
    pose proof (try_cameras_frame [0; 1; 2] s0) as T. cbn zeta in T.
    unfold initialize_camera in Hi. rewrite Hi in T. cbn [fst snd] in T.
    destruct T as (T1 & T2 & T3 & _ & _ & _ & T7).
    destruct (T7 eq_refl) as (cam' & Hc' & _ & Ho).
    rewrite Hc in Hc'. inversion Hc'; subst cam'.
    assert (Hr' : is_running s = true) by congruence.
    cbn [gen_next]. unfold initialize_camera. rewrite Hi.
    rewrite (@guarded_pass_raise detect 0 s cam f rest exn
               Hr' Hc Ho Hf eq_refl Hd He).
    cbn [fst snd].
    destruct (@raise_outcome s cam rest
                ("Error in generate_frames: " ++ exn_str exn) Hr' Hc)
      as (O1 & O2 & O3 & O4 & O5 & O6).
    split; [reflexivity |].
    split; [congruence |]. split; [congruence |]. split; [exact O3 |].
    split.
    { pose proof (finally_release_closed
                    (print ("Error in generate_frames: " ++ exn_str exn)
                           (set_feed rest s))) as F. exact F. }
    split; [exact O4 |]. split; [exact O5 |]. split; [exact O6 |].
    intros n. apply stream_done.
Qed.

Lemma analyzer_failure_stops_witness :
  (fst (gen_next failing_stub (GenSuspended 5)
          (snd (run happy_stub 5 (GenCreated, started_server))))
   = (StopIteration, GenDone) /\
   is_running (snd (gen_next failing_stub (GenSuspended 5)
                      (snd (run happy_stub 5 (GenCreated, started_server)))))
   = true) /\
  (fst (gen_next failing_stub GenCreated started_server)
   = (StopIteration, GenDone) /\
   camera_open (snd (gen_next failing_stub GenCreated started_server))
   = false /\
   stdout (snd (gen_next failing_stub GenCreated started_server))
   = stdout (snd (initialize_camera started_server))
     ++ ["Error in generate_frames: analyzer failed"%string]).
Proof.
  destruct (analyzer_failure_stops failing_stub) as [A B].
  pose proof (A 5 (snd (run happy_stub 5 (GenCreated, started_server)))
                0 blank (repeat (Some blank) 33)
                (mkExn "RuntimeError" "analyzer failed")
                eq_refl eq_refl eq_refl eq_refl eq_refl eq_refl eq_refl)
    as (H1 & _ & _ & _ & H2 & _).
  pose proof (B started_server (snd (initialize_camera started_server))
                0 blank (repeat (Some blank) 38)
                (mkExn "RuntimeError" "analyzer failed")
                eq_refl eq_refl eq_refl eq_refl eq_refl eq_refl)
    as (G1 & _ & _ & _ & G2 & _ & _ & G3 & _).
  split; [split; assumption |].
  split; [exact G1 |]. split; [exact G2 | exact G3].
Defined.

(** C4 as stated fails: with an analyzer that raises, the very first pass
    ends the generator; a viewer asking for 25 chunks gets none, although
    the camera had frames to give, and the camera has been released. *)
Lemma analyzer_failure_aborts_loop :
  fst (gen_next failing_stub GenCreated started_server)
  = (StopIteration, GenDone) /\
  stream failing_stub 25 GenCreated started_server = [] /\
  camera_open (snd (gen_next failing_stub GenCreated started_server)) = false /\
  length (feed (snd (gen_next failing_stub GenCreated started_server))) = 38 /\
  length (stream happy_stub 25 GenCreated started_server) = 25.
Proof. repeat split. Qed.

(** ** Analysis cadence *)

Lemma analyse_skip detect fc frame s :
  fc mod 5 <> 0 -> analyse detect fc frame s = Ok (frame, s).
Proof.
  intros H. unfold analyse.
  destruct (Nat.eqb_spec (fc mod 5) 0); [contradiction | reflexivity].
Qed.

Lemma analyse_call detect fc frame s :
  fc mod 5 = 0 ->
  analyse detect fc frame s
  = (r <- detect (clock s) frame ;;
     let '(frame', emo, conf) := r in
     Ok (frame',
         set_emotion_data (store_emotion (emotion_data s) (clock s) emo conf)
                          (set_current_emotion emo s))).
Proof. intros H. unfold analyse. rewrite H. reflexivity. Qed.


Lemma Forall_skipn_keep (A : Type) (P : A -> Prop) (n : nat) (l : list A) :
  Forall P l -> Forall P (skipn n l).
Proof.
  revert l. induction n as [| n IH]; intros l H; [exact H |].
  destruct l as [| x l]; [constructor |]. cbn [skipn].
  apply IH. now inversion H.
Qed.

Lemma append_record_Forall (P : Detection -> Prop) data r :
  Forall P data -> P r -> Forall P (append_record data r).
Proof.
  intros Hd Hr. rewrite append_record_skipn. apply Forall_skipn_keep.
  apply Forall_app. split; [exact Hd | now constructor].
Qed.

Lemma append_record_length_min data r :
  length (append_record data r) = Nat.min 100 (length data + 1).
Proof.
  rewrite append_record_skipn, length_skipn, length_app. cbn [length]. lia.
Qed.

Lemma analysed_S fc n :
  analysed fc (S n) = (if fc mod 5 =? 0 then 1 else 0) + analysed (S fc) n.
Proof.
  unfold analysed. cbn [seq filter].
  destruct (fc mod 5 =? 0); reflexivity.
Qed.

Lemma stream_S detect n g s :
  stream detect (S n) g s
  = match gen_next detect g s with
    | (NextChunk c, g', s') => c :: stream detect n g' s'
    | (_, g', s') => stream detect n g' s'
    end.
Proof. reflexivity. Qed.

Lemma run_S detect n gs :
  run detect (S n) gs = run detect n (advance detect gs).
Proof. unfold run. apply Nat.iter_succ_r. Qed.

(** [initialize_camera] succeeds as soon as one of the three indices has a
    device and the device has a frame to give. *)
Lemma try_cameras_ok indices : forall s f rest,
  (exists i, In i indices /\ device_present s i = true) ->
  feed s = Some f :: rest ->
  exists cam s',
    try_cameras indices s = (true, s') /\
    camera s' = Some cam /\ isOpened cam s' = true /\ feed s' = rest /\
    is_running s' = is_running s /\ emotion_data s' = emotion_data s /\
    current_emotion s' = current_emotion s.
Proof.
  induction indices as [| i indices IH]; intros s f rest (j & Hj & Hp) Hf.
  - destruct Hj.
  - cbn [try_cameras].
    pose proof (VideoCapture_isOpened i s) as Hnew.
    unfold VideoCapture in *. cbn [fst snd] in Hnew. rewrite Hnew.
    destruct (device_present s i) eqn:Hi.
    + unfold cap_read. rewrite Hnew. cbn [feed set_captures]. rewrite Hf.
      cbv beta iota zeta. eexists _, _. split; [reflexivity |].
      match goal with
      | |- context [bind_camera ?n ?t] =>
          destruct (bind_camera_frame n t) as (B1 & B2 & B3 & B4 & B5 & _);
          pose proof (@bind_camera_new_open n t) as Bo
      end.
      change (isOpened ?h (print ?l ?x)) with (isOpened h x).
      cbn [camera feed is_running emotion_data current_emotion print].
      rewrite B1, B2, B3, B4, B5. cbn.
      repeat split. apply Bo. unfold isOpened. cbn [captures set_feed set_captures].
      apply nth_middle.
    + destruct Hj as [<- | Hj]; [congruence |].
      match goal with
      | |- context [try_cameras indices ?t] =>
          destruct (IH t f rest) as (cam & s' & E & H1 & H2 & H3 & H4 & H5 & H6);
            [exists j; split; [exact Hj | exact Hp] | exact Hf |]
      end.
      exists cam, s'. repeat split; assumption.
Qed.

(** One pass with the "Happy" stub on a running server whose camera has a
    frame ready. *)
Lemma happy_pass fc s cam f rest :
  is_running s = true -> camera s = Some cam -> isOpened cam s = true ->
  feed s = Some f :: rest ->
  exists c s',
    guarded_pass happy_stub fc s = (NextChunk c, GenSuspended (fc + 1), s') /\
    is_running s' = true /\ camera s' = Some cam /\
    isOpened cam s' = true /\ feed s' = rest /\
    emotion_data s'
    = (if fc mod 5 =? 0
       then append_record (emotion_data s)
                          (mkDetection (clock s) "Happy" 0.9%float)
       else emotion_data s) /\
    current_emotion s'
    = (if fc mod 5 =? 0 then "Happy"%string else current_emotion s).
Proof.
  intros Hr Hc Ho Hf. unfold guarded_pass, loop_body.
  rewrite Hr, Hc. cbn [negb]. unfold cap_read. rewrite Ho, Hf.
  cbv beta iota. unfold analyse, happy_stub.
  destruct (fc mod 5 =? 0); cbn [bind]; eexists _, _;
    (split; [reflexivity |]); unfold isOpened in *; cbn;
    repeat split; auto.
Qed.

Lemma happy_run frames : forall fc s cam rest,
  is_running s = true -> camera s = Some cam -> isOpened cam s = true ->
  feed s = map Some frames ++ rest ->
  length (emotion_data s) <= 100 ->
  let r := run happy_stub (length frames) (GenSuspended fc, s) in
  fst r = GenSuspended (fc + length frames) /\
  length (stream happy_stub (length frames) (GenSuspended fc) s)
  = length frames /\
  feed (snd r) = rest /\
  length (emotion_data (snd r))
  = Nat.min 100 (length (emotion_data s) + analysed fc (length frames)) /\
  (Forall is_happy (emotion_data s) -> Forall is_happy (emotion_data (snd r))) /\
  (current_emotion s = "Happy"%string ->
   current_emotion (snd r) = "Happy"%string).
Proof.
  induction frames as [| f frames IH]; intros fc s cam rest Hr Hc Ho Hf Hl;
    cbn zeta.
  - change (run happy_stub (length (@nil Frame)) (GenSuspended fc, s))
      with (GenSuspended fc, s).
    unfold analysed.
    cbn [length seq filter fst snd stream]. rewrite !Nat.add_0_r.
    repeat split; auto. lia.
  - cbn [length]. rewrite run_S. unfold advance. cbn [fst snd stream gen_next].
    destruct (@happy_pass fc (sleep 33 s) cam f (map Some frames ++ rest))
      as (c & s' & E & H1 & H2 & H3 & H4 & H5 & H6); auto.
    rewrite E.
    assert (Hl' : length (emotion_data s') <= 100).
    { rewrite H5. destruct (fc mod 5 =? 0);
        [apply append_record_length | exact Hl]. }
    specialize (IH (fc + 1) s' cam rest H1 H2 H3 H4 Hl'). cbn zeta in IH.
    destruct IH as (I1 & I2 & I3 & I4 & I5 & I6).
    rewrite I1, I3, I4. cbn [length]. rewrite I2, analysed_S.
    replace (S fc) with (fc + 1) by lia.
    cbn [emotion_data current_emotion sleep] in H5, H6.
    repeat split; try lia.
    + f_equal. lia.
    + rewrite H5.
      destruct (fc mod 5 =? 0);
        [rewrite append_record_length_min |]; lia.
    + intros HF. apply I5. rewrite H5.
      destruct (fc mod 5 =? 0); [| exact HF].
      apply append_record_Forall; [exact HF | split; reflexivity].
    + intros HC. apply I6. rewrite H6.
      destruct (fc mod 5 =? 0); [reflexivity | exact HC].
Qed.

(** The whole scenario from an arbitrary running server with an empty
    history: the first [next] opens the camera and makes pass 0, the other
    24 follow. *)
Lemma happy_first_run s1 i f0 f1 frames rest :
  i < 3 -> device_present s1 i = true ->
  feed s1 = Some f0 :: Some f1 :: map Some frames ++ rest ->
  is_running s1 = true -> emotion_data s1 = [] ->
  length frames = 24 ->
  fst (run happy_stub 25 (GenCreated, s1)) = GenSuspended 25 /\
  length (stream happy_stub 25 GenCreated s1) = 25 /\
  length (emotion_data (snd (run happy_stub 25 (GenCreated, s1)))) = 5 /\
  Forall is_happy (emotion_data (snd (run happy_stub 25 (GenCreated, s1)))) /\
  current_emotion (snd (run happy_stub 25 (GenCreated, s1))) = "Happy"%string.
Proof.
  intros Hi P1 F1 R1 D1 Hlen'.
  destruct (@try_cameras_ok [0; 1; 2] s1 f0
              (Some f1 :: map Some frames ++ rest))
    as (cam & s2 & E2 & C2 & O2 & F2 & R2 & D2 & L2).
  { exists i. split; [| exact P1].
    destruct i as [| [| [| ?]]]; cbn; auto. lia. }
  { exact F1. }
  destruct (@happy_pass 0 s2 cam f1 (map Some frames ++ rest))
    as (c & s3 & E3 & R3 & C3 & O3 & F3 & D3 & L3); auto; try congruence.
  change (0 mod 5 =? 0) with true in D3, L3. cbv iota in D3, L3.
  rewrite D2, D1 in D3.
  assert (Hnext : gen_next happy_stub GenCreated s1
                  = (NextChunk c, GenSuspended 1, s3)).
  { cbn [gen_next]. unfold initialize_camera. rewrite E2. exact E3. }
  assert (Hadv : advance happy_stub (GenCreated, s1) = (GenSuspended 1, s3)).
  { unfold advance. cbn [fst snd]. now rewrite Hnext. }
  assert (Hstr : stream happy_stub 25 GenCreated s1
                 = c :: stream happy_stub 24 (GenSuspended 1) s3).
  { rewrite stream_S, Hnext. reflexivity. }
  assert (Hl3 : length (emotion_data s3) <= 100) by (rewrite D3; cbn; lia).
  pose proof (@happy_run frames 1 s3 cam rest R3 C3 O3 F3 Hl3) as Hrun.
  cbn zeta in Hrun. rewrite Hlen' in Hrun.
  destruct Hrun as (I1 & I2 & I3 & I4 & I5 & I6).
  rewrite run_S, Hadv, Hstr, length_cons, I1, I2, I4.
  split; [reflexivity |]. split; [reflexivity |].
  split; [rewrite D3; reflexivity |].
  split; [apply I5; rewrite D3; repeat constructor | apply I6; exact L3].
Qed.

(** C9: the analyzer is consulted on the passes whose [frame_count] is a
    multiple of 5 and on no other; a skipped pass leaves the label and the
    history as they were.  With the stub that always reports "Happy" at
    0.9, a freshly started server and a camera on one of the three probed
    indices that delivers 26 frames (one for the probe read of
    [initialize_camera], 25 for the passes), one viewer pulling 25 chunks
    sees all 25 passes yield; 5 of them are analysis passes, the history
    ends with exactly 5 records, all "Happy" at 0.9, and the current label
    is "Happy". *)
Theorem analysis_every_fifth (present : nat -> bool) (frames : list Frame)
    (rest : list (option Frame)) :
  (exists i, i < 3 /\ present i = true) ->
  length frames = 26 ->
  let s1 := snd (start (initial_server present (map Some frames ++ rest))) in
  let r := run happy_stub 25 (GenCreated, s1) in
  (forall detect fc frame s,
     fc mod 5 <> 0 -> analyse detect fc frame s = Ok (frame, s)) /\
  analysed 0 25 = 5 /\
  fst r = GenSuspended 25 /\
  length (stream happy_stub 25 GenCreated s1) = 25 /\
  length (emotion_data (snd r)) = 5 /\
  Forall is_happy (emotion_data (snd r)) /\
  current_emotion (snd r) = "Happy"%string.
Proof.
  intros (i & Hi & Hp) Hlen. cbn zeta.
  split; [intros; now apply analyse_skip |].
  split; [reflexivity |].
  destruct frames as [| f0 [| f1 frames]]; try discriminate.
  assert (Hlen' : length frames = 24) by (cbn in Hlen; lia).
  apply (@happy_first_run
           (snd (start (initial_server present
                          (map Some (f0 :: f1 :: frames) ++ rest))))
           i f0 f1 frames rest); auto.
Qed.

Lemma analysis_every_fifth_witness :
  let s1 := snd (start (initial_server (fun _ => true)
                          (map Some (repeat blank 26) ++ []))) in
  length (emotion_data (snd (run happy_stub 25 (GenCreated, s1)))) = 5 /\
  current_emotion (snd (run happy_stub 25 (GenCreated, s1))) = "Happy"%string.
Proof.
  assert (P : exists i, i < 3 /\ (fun _ : nat => true) i = true)
    by (exists 0; split; [lia | reflexivity]).
  pose proof (@analysis_every_fifth (fun _ => true) (repeat blank 26) []
                P eq_refl)
    as (_ & _ & _ & _ & H1 & _ & H2).
  split; [exact H1 | exact H2].
Defined.

(** * Further properties of the handlers and the generator *)

(** ** The history and its queries *)

(** X12: recording into a history that is not yet full appends the record
    and keeps everything; recording into a full history drops exactly the
    oldest record and keeps the others in their order, the new one last. *)
Theorem record_evicts_oldest (data : list Detection) (r : Detection) :
  (length data < 100 -> append_record data r = data ++ [r]) /\
  (length data = 100 ->
   exists oldest others,
     data = oldest :: others /\ append_record data r = others ++ [r]).
Proof.
  split; intros H.
  - rewrite append_record_skipn, length_app. cbn [length].
    replace (length data + 1 - 100) with 0 by lia. reflexivity.
  - destruct data as [| x rest]; [discriminate |].
    exists x, rest. split; [reflexivity |].
    rewrite append_record_skipn, length_app, H. reflexivity.
Qed.

(** X4: [/api/emotions] returns the newest records of the history, in
    their order: the history is some older records followed by the reply,
    and the reply has 20 records, or all of them when there are fewer. *)
Theorem get_emotions_suffix (data : list Detection) :
  exists older,
    data = older ++ get_emotions data /\
    length (get_emotions data) = Nat.min 20 (length data) /\
    (length data <= 20 -> get_emotions data = data).
Proof.
  unfold get_emotions, recent. rewrite slice_last_skipn by lia.
  exists (firstn (length data - 20) data).
  split; [now rewrite firstn_skipn |].
  split; [rewrite length_skipn; lia |].
  intros H. replace (length data - 20) with 0 by lia. reflexivity.
Qed.

(** ** The count dictionary of [/api/stats] *)

(** X5: for a non-empty history the reply's [emotion_counts] has one entry
    for each label that occurs in the history and for no other, without
    repetition; every count is at least 1; the counts add up to
    [total_detections], which is the length of the history; and
    [emotion_percentages] has the same keys in the same order. *)
Theorem stats_counts_consistent (data : list Detection) :
  data <> [] ->
  exists counts pcts mc,
    get_stats data = Ok (Stats (length data) counts pcts mc) /\
    NoDup (keys counts) /\
    (forall l, In l (keys counts) <-> exists d, In d data /\ emotion d = l) /\
    (forall l c, In (l, c) counts -> 1 <= c) /\
    list_sum (values counts) = length data /\
    keys pcts = keys counts.
Proof.
  intros Hd. destruct (get_stats_nonempty Hd) as (m & _ & _ & E & _).
  eexists _, _, _. split; [exact E |].
  split; [apply count_emotions_NoDup |].
  split; [| split; [| split]].
  - intros l. split.
    + intros Hin. apply count_emotions_positive in Hin.
      unfold count_label in Hin.
      destruct (filter _ data) as [| d ds] eqn:Ef; [cbn in Hin; lia |].
      assert (Hd' : In d (filter (fun r => String.eqb (emotion r) l) data))
        by (rewrite Ef; now left).
      apply filter_In in Hd' as [H1 H2]. apply String.eqb_eq in H2.
      now exists d.
    + intros (d & Hin & <-). now apply count_emotions_keys.
  - intros l c Hin. rewrite (count_emotions_value _ _ _ Hin).
    apply count_emotions_positive. unfold keys.
    change l with (fst (l, c)). now apply in_map.
  - apply count_emotions_sum.
  - unfold keys. rewrite map_map. reflexivity.
Qed.

Lemma stats_counts_consistent_witness :
  exists counts pcts mc,
    get_stats sample_history
    = Ok (Stats (length sample_history) counts pcts mc) /\
    NoDup (keys counts) /\
    (forall l, In l (keys counts) <->
               exists d, In d sample_history /\ emotion d = l) /\
    (forall l c, In (l, c) counts -> 1 <= c) /\
    list_sum (values counts) = length sample_history /\
    keys pcts = keys counts.
Proof. apply (@stats_counts_consistent sample_history). discriminate. Defined.

(** ** Opening the camera *)

Lemma list_update_last (A : Type) (x y : A) (l : list A) :
  list_update (length l) x (l ++ [y]) = l ++ [x].
Proof. induction l as [| z l IH]; cbn; [reflexivity | now rewrite IH]. Qed.

Lemma closed_beyond h s : length (captures s) <= h -> isOpened h s = false.
Proof. intros H. unfold isOpened. now apply nth_overflow. Qed.

Lemma try_cameras_no_leak indices : forall s h,
  length (captures s) <= h ->
  isOpened h (snd (try_cameras indices s)) = true ->
  fst (try_cameras indices s) = true /\
  camera (snd (try_cameras indices s)) = Some h /\
  length (captures s) <= h.
Proof.
  induction indices as [| i rest IH]; intros s h Hh.
  - cbn. intros Ho. rewrite nth_overflow in Ho by exact Hh. discriminate.
  - cbn [try_cameras].
    pose proof (VideoCapture_isOpened i s) as Hnew.
    unfold VideoCapture in *. cbn [fst snd] in Hnew. rewrite Hnew.
    assert (Hrec : forall t,
      captures t = list_update (length (captures s)) false
                               (captures s ++ [device_present s i]) ->
      isOpened h (snd (try_cameras rest t)) = true ->
      fst (try_cameras rest t) = true /\
      camera (snd (try_cameras rest t)) = Some h /\
      length (captures s) <= h).
    { intros t Ht Ho.
      assert (Hlen : length (captures t) = S (length (captures s))).
      { rewrite Ht, list_update_length, length_app. cbn. lia. }
      destruct (Nat.eq_dec h (length (captures s))) as [-> | Hne].
      - destruct (@try_cameras_frame rest t) as (_ & _ & _ & _ & T5 & _).
        apply (proj1 (T5 (length (captures s)) ltac:(lia))) in Ho.
        unfold isOpened in Ho.
        rewrite Ht, list_update_nth, Nat.eqb_refl in Ho.
        rewrite length_app in Ho. cbn [length andb] in Ho.
        replace (length (captures s) <? length (captures s) + 1) with true
          in Ho by (symmetry; apply Nat.ltb_lt; lia).
        discriminate.
      - destruct (IH t h) as (I1 & I2 & _); [lia | exact Ho |].
        repeat split; assumption. }
    destruct (device_present s i) eqn:Hp.
    + unfold cap_read. rewrite Hnew. cbn [feed set_captures].
      destruct (feed s) as [| [f |] fs]; cbv beta iota.
      * apply Hrec. reflexivity.
      * cbv zeta. cbn [fst snd].
        change (isOpened ?k (print ?l ?x)) with (isOpened k x).
        change (camera (print ?l ?x)) with (camera x).
        match goal with
        | |- context [bind_camera ?n ?t] =>
            destruct (bind_camera_frame n t) as (B1 & _)
        end.
        intros Ho. split; [reflexivity |]. split; [| exact Hh].
        rewrite B1.
        destruct (Nat.eq_dec h (length (captures s))) as [-> | Hne];
          [reflexivity |].
        apply bind_camera_no_reopen in Ho. unfold isOpened in Ho.
        cbn [captures set_feed set_captures] in Ho.
        rewrite nth_overflow in Ho; [discriminate |].
        rewrite length_app. cbn. lia.
      * apply Hrec. reflexivity.
    + apply Hrec. reflexivity.
Qed.

(** When [initialize_camera] succeeds, the capture that [camera] named
    before has lost its last reference and is released. *)
Lemma try_cameras_rebinds indices : forall s h,
  camera s = Some h -> h < length (captures s) ->
  fst (try_cameras indices s) = true ->
  isOpened h (snd (try_cameras indices s)) = false.
Proof.
  induction indices as [| i rest IH]; intros s h Hc Hh.
  - cbn. discriminate.
  - cbn [try_cameras].
    pose proof (VideoCapture_isOpened i s) as Hnew.
    unfold VideoCapture in *. cbn [fst snd] in Hnew. rewrite Hnew.
    assert (Hrec : forall t,
      camera t = camera s ->
      length (captures t) = S (length (captures s)) ->
      fst (try_cameras rest t) = true ->
      isOpened h (snd (try_cameras rest t)) = false).
    { intros t H1 H2. apply IH; [congruence | lia]. }
    assert (Hlen : forall b : bool,
              length (list_update (length (captures s)) false
                                  (captures s ++ [b]))
              = S (length (captures s)))
      by (intros; rewrite list_update_length, length_app; cbn; lia).
    destruct (device_present s i) eqn:Hp.
    + unfold cap_read. rewrite Hnew. cbn [feed set_captures].
      destruct (feed s) as [| [f |] fs]; cbv beta iota.
      * apply Hrec; [reflexivity | apply Hlen].
      * cbv zeta. cbn [fst snd]. intros _.
        change (isOpened ?k (print ?l ?x)) with (isOpened k x).
        rewrite bind_camera_opened. cbn [camera set_feed set_captures].
        rewrite Hc, Nat.eqb_refl.
        destruct (Nat.eqb_spec h (length (captures s))); [lia | reflexivity].
      * apply Hrec; [reflexivity | apply Hlen].
    + apply Hrec; [reflexivity | apply Hlen].
Qed.

(** X1: [initialize_camera] leaves no probe behind.  A capture that it
    built and that is still open when it returns is the one it bound to
    [camera], and then it returned True; when it returns False every
    capture it built has been released, [camera] is what it was and every
    earlier capture is as it was.  When it returns True, every earlier
    capture but the one [camera] named is as it was, and that one, having
    lost its last reference to the rebinding of line 58, is released. *)
Theorem initialize_camera_no_leak (s : Server) :
  let r := initialize_camera s in
  (forall h, length (captures s) <= h -> isOpened h (snd r) = true ->
             fst r = true /\ camera (snd r) = Some h) /\
  (fst r = false ->
   camera (snd r) = camera s /\
   (forall h, length (captures s) <= h -> isOpened h (snd r) = false) /\
   (forall h, h < length (captures s) -> isOpened h (snd r) = isOpened h s)) /\
  (forall h, h < length (captures s) -> camera s <> Some h ->
             isOpened h (snd r) = isOpened h s) /\
  (fst r = true ->
   forall h, camera s = Some h -> h < length (captures s) ->
             isOpened h (snd r) = false) /\
  is_running (snd r) = is_running s /\
  emotion_data (snd r) = emotion_data s /\
  current_emotion (snd r) = current_emotion s.
Proof.
  cbn zeta. unfold initialize_camera.
  destruct (@try_cameras_frame [0; 1; 2] s) as (T1 & T2 & T3 & _ & T5 & T6 & _).
  split; [| split; [| split; [| split; [| repeat split; assumption]]]].
  - intros h Hh Ho.
    destruct (@try_cameras_no_leak [0; 1; 2] s h Hh Ho) as (H1 & H2 & _).
    split; assumption.
  - intros Hf. destruct (T6 Hf) as (T6c & T6o).
    split; [exact T6c |]. split; [| exact T6o].
    intros h Hh.
    destruct (isOpened h (snd (try_cameras [0; 1; 2] s))) eqn:Ho;
      [| reflexivity].
    destruct (@try_cameras_no_leak [0; 1; 2] s h Hh Ho) as (H1 & _).
    congruence.
  - intros h Hh Hc. now apply (T5 h Hh).
  - intros Ht h Hc Hh. now apply try_cameras_rebinds.
Qed.

(** Probing indices that have no device: one closed capture each, and
    the failure line. *)
Lemma try_cameras_absent indices : forall s,
  (forall i, In i indices -> device_present s i = false) ->
  try_cameras indices s
  = (false,
     mkServer (camera s) (is_running s) (emotion_data s) (current_emotion s)
              (device_present s) (feed s)
              (captures s ++ repeat false (length indices))
              (open_calls s) (clock s)
              (stdout s ++ ["No working camera found"%string])).
Proof.
  induction indices as [| i rest IH]; intros s Hp.
  - destruct s. cbn. now rewrite app_nil_r.
  - cbn [try_cameras].
    pose proof (VideoCapture_isOpened i s) as Hnew.
    unfold VideoCapture in *. cbn [fst snd] in Hnew.
    rewrite Hnew, (Hp i (or_introl eq_refl)).
    rewrite IH.
    + destruct s as [c r d e p f caps n t out].
      unfold cap_release, set_captures. cbn [camera is_running emotion_data
        current_emotion device_present feed captures open_calls clock stdout
        length repeat].
      rewrite list_update_last, <- app_assoc. reflexivity.
    + intros j Hj. cbn. apply Hp. now right.
Qed.

(** X2: with no device on any of the three indices the feed is empty:
    the first [next] of a generator ends the stream at once, having built
    and released three captures and logged the failure, and changes
    nothing else -- [camera], [is_running], the history, the label, the
    frames still to come.  [start] knows nothing of it: on such a server
    it still answers "started". *)
Theorem no_camera_empty_stream (detect : Analyzer) (s : Server) :
  (forall i, i < 3 -> device_present s i = false) ->
  let r := gen_next detect GenCreated s in
  fst r = (StopIteration, GenDone) /\
  (forall n, stream detect n GenCreated s = []) /\
  camera (snd r) = camera s /\ is_running (snd r) = is_running s /\
  emotion_data (snd r) = emotion_data s /\
  current_emotion (snd r) = current_emotion s /\
  feed (snd r) = feed s /\ open_calls (snd r) = open_calls s /\
  captures (snd r) = captures s ++ [false; false; false] /\
  stdout (snd r) = stdout s ++ ["No working camera found"%string] /\
  (is_running s = false -> status (fst (start s)) = "started"%string).
Proof.
  intros Hp. cbn zeta.
  assert (E : gen_next detect GenCreated s
              = (StopIteration, GenDone,
                 mkServer (camera s) (is_running s) (emotion_data s)
                          (current_emotion s) (device_present s) (feed s)
                          (captures s ++ [false; false; false])
                          (open_calls s) (clock s)
                          (stdout s ++ ["No working camera found"%string]))).
  { cbn [gen_next]. unfold initialize_camera.
    rewrite try_cameras_absent; [reflexivity |].
    intros i [<- | [<- | [<- | []]]]; apply Hp; lia. }
  rewrite E. cbn [fst snd camera is_running emotion_data current_emotion
                  feed open_calls captures stdout].
  repeat split.
  - intros [| n]; [reflexivity |]. rewrite stream_S, E. apply stream_done.
  - intros Hr. unfold start. rewrite Hr. reflexivity.
Qed.

Lemma no_camera_empty_stream_witness :
  fst (gen_next happy_stub GenCreated
         (initial_server (fun _ => false) [Some blank]))
  = (StopIteration, GenDone) /\
  feed (snd (gen_next happy_stub GenCreated
               (initial_server (fun _ => false) [Some blank])))
  = [Some blank].
Proof.
  pose proof (@no_camera_empty_stream happy_stub
                (initial_server (fun _ => false) [Some blank])
                (fun _ _ => eq_refl))
    as (H1 & _ & _ & _ & _ & _ & H2 & _).
  split; assumption.
Defined.

(** ** Streams and the run flag *)

Lemma stop_clears s :
  is_running (snd (stop s)) = false /\ camera (snd (stop s)) = None.
Proof.
  rewrite stop_state. destruct (camera s) eqn:Hc; cbn; rewrite ?Hc;
    split; reflexivity.
Qed.

Lemma guarded_pass_not_running detect fc s :
  is_running s = false ->
  guarded_pass detect fc s = (StopIteration, GenDone, finally_release s).
Proof. intros H. unfold guarded_pass, loop_body. now rewrite H. Qed.

(** X3: a feed requested while nothing is running ends at once, without a
    chunk, and leaves the run flag, the history and the label alone -- but
    it is not free: the generator first opens the camera and reads a frame
    from it, and only then notices; it releases the camera on its way out. *)
Theorem idle_feed_ends (detect : Analyzer) (s : Server) :
  is_running s = false ->
  let r := gen_next detect GenCreated s in
  fst r = (StopIteration, GenDone) /\
  (forall n, stream detect n GenCreated s = []) /\
  is_running (snd r) = false /\
  emotion_data (snd r) = emotion_data s /\
  current_emotion (snd r) = current_emotion s /\
  (fst (initialize_camera s) = true -> camera_open (snd r) = false) /\
  (forall f rest, device_present s 0 = true -> feed s = Some f :: rest ->
     open_calls (snd r) = open_calls s + 1 /\ feed (snd r) = rest /\
     camera (snd r) = Some (length (captures s)) /\
     camera_open (snd r) = false).
Proof.
  intros Hr. cbn zeta.
  destruct (@try_cameras_frame [0; 1; 2] s) as (T1 & T2 & T3 & _).
  assert (E : gen_next detect GenCreated s
              = (StopIteration, GenDone,
                 if fst (initialize_camera s)
                 then finally_release (snd (initialize_camera s))
                 else snd (initialize_camera s))).
  { cbn [gen_next]. unfold initialize_camera in *.
    destruct (try_cameras [0; 1; 2] s) as [[|] t]; cbn [fst snd] in *;
      [| reflexivity].
    apply guarded_pass_not_running. congruence. }
  rewrite E. cbn [fst snd]. unfold initialize_camera in *.
  assert (Hfin : forall t,
    is_running (finally_release t) = is_running t /\
    emotion_data (finally_release t) = emotion_data t /\
    current_emotion (finally_release t) = current_emotion t /\
    open_calls (finally_release t) = open_calls t /\
    feed (finally_release t) = feed t /\
    camera (finally_release t) = camera t).
  { intros t. unfold finally_release. destruct (camera t) eqn:Hc;
      cbn; rewrite ?Hc; repeat split. }
  split; [reflexivity |]. split.
  { intros [| n]; [reflexivity |]. rewrite stream_S, E. apply stream_done. }
  destruct (fst (try_cameras [0; 1; 2] s)) eqn:Hok.
  - destruct (Hfin (snd (try_cameras [0; 1; 2] s)))
      as (F1 & F2 & F3 & F4 & F5 & F6).
    rewrite F1, F2, F3, F4, F5, F6.
    repeat split; try congruence.
    + intros _. apply finally_release_closed.
    + now apply (@initialize_camera_opens s f rest).
    + now apply (@initialize_camera_opens s f rest).
    + now apply (@initialize_camera_opens s f rest).
    + apply finally_release_closed.
  - repeat split; try congruence.
    all: exfalso;
      match goal with
      | Hp : device_present ?t 0 = true, Hf : feed ?t = Some ?f :: ?rest |- _ =>
          destruct (@initialize_camera_opens t f rest Hp Hf) as (H1 & _);
          unfold initialize_camera in H1; congruence
      end.
Qed.

Lemma idle_feed_ends_witness :
  fst (gen_next happy_stub GenCreated
         (initial_server (fun _ => true) [Some blank; Some blank]))
  = (StopIteration, GenDone) /\
  feed (snd (gen_next happy_stub GenCreated
               (initial_server (fun _ => true) [Some blank; Some blank])))
  = [Some blank].
Proof.
  pose proof (@idle_feed_ends happy_stub
                (initial_server (fun _ => true) [Some blank; Some blank])
                eq_refl)
    as (H1 & _ & _ & _ & _ & _ & H2).
  destruct (H2 blank [Some blank] eq_refl eq_refl) as (_ & H3 & _).
  split; assumption.
Defined.

(** X8: after [stop], the next step of any parked generator ends its
    stream: it consumes no frame, touches no capture, raises nothing, and
    leaves the server as [stop] left it, the pacing pause apart. *)
Theorem stop_ends_streams (detect : Analyzer) (s : Server) (fc : nat) :
  gen_next detect (GenSuspended fc) (snd (stop s))
  = (StopIteration, GenDone, sleep 33 (snd (stop s))) /\
  (forall n, stream detect n (GenSuspended fc) (snd (stop s)) = []).
Proof.
  assert (E : gen_next detect (GenSuspended fc) (snd (stop s))
              = (StopIteration, GenDone, sleep 33 (snd (stop s)))).
  { cbn [gen_next]. rewrite guarded_pass_not_running.
    - unfold finally_release. rewrite stop_state.
      destruct (camera s) eqn:Hc; cbn; rewrite ?Hc; reflexivity.
    - rewrite stop_state. destruct (camera s); reflexivity. }
  split; [exact E |].
  intros [| n]; [reflexivity |]. rewrite stream_S, E. apply stream_done.
Qed.

(** X9: a [stop] followed by a [start] does not revive the viewers that
    were parked: [stop] took the camera away, so the next step of such a
    generator fails on the missing camera inside the [try], is caught
    there and ends the stream.  The server is then running with no camera
    bound, and stays so until a new feed is requested; no frame was
    consumed and the history and label are untouched. *)
Theorem restart_drops_viewers (detect : Analyzer) (s : Server) (fc : nat) :
  let s1 := snd (start (snd (stop s))) in
  let r := gen_next detect (GenSuspended fc) s1 in
  status (fst (start (snd (stop s)))) = "started"%string /\
  fst r = (StopIteration, GenDone) /\
  (forall n, stream detect n (GenSuspended fc) s1 = []) /\
  is_running (snd r) = true /\ camera (snd r) = None /\
  feed (snd r) = feed s /\ emotion_data (snd r) = emotion_data s /\
  current_emotion (snd r) = current_emotion s /\
  captures (snd r) = captures (snd (stop s)).
Proof.
  cbn zeta.
  assert (S1 : snd (start (snd (stop s)))
               = set_is_running true (snd (stop s))).
  { unfold start. rewrite stop_state.
    destruct (camera s); reflexivity. }
  assert (S2 : status (fst (start (snd (stop s)))) = "started"%string).
  { unfold start. rewrite stop_state. destruct (camera s); reflexivity. }
  assert (C : camera (snd (stop s)) = None).
  { rewrite stop_state. destruct (camera s) eqn:Hc; cbn; rewrite ?Hc;
      reflexivity. }
  assert (E : gen_next detect (GenSuspended fc)
                (set_is_running true (snd (stop s)))
              = (StopIteration, GenDone,
                 print ("Error in generate_frames: "
                        ++ exn_str no_camera_error)
                       (sleep 33 (set_is_running true (snd (stop s)))))).
  { cbn [gen_next]. unfold guarded_pass, loop_body.
    cbn [is_running camera sleep set_is_running negb]. rewrite C.
    rewrite is_Exception_AttributeError. unfold finally_release.
    cbn [camera print sleep set_is_running]. rewrite C. reflexivity. }
  rewrite S1, E. cbn [fst snd]. split; [exact S2 |].
  split; [reflexivity |]. split.
  { intros [| n]; [reflexivity |]. rewrite stream_S, E. apply stream_done. }
  cbn [is_running camera feed emotion_data current_emotion captures print
       sleep set_is_running].
  rewrite C, stop_state. destruct (camera s); repeat split.
Qed.

(** X13: on a server that is not running and has no camera bound, [start]
    followed by [stop] is a round trip: the two replies are "started" and
    "stopped" and the state is the one before.  And whatever the state,
    the [start] after a [stop] answers "started". *)
Theorem start_stop_round_trip (s : Server) :
  is_running s = false -> camera s = None ->
  status (fst (start s)) = "started"%string /\
  status (fst (stop (snd (start s)))) = "stopped"%string /\
  snd (stop (snd (start s))) = s /\
  (forall t, status (fst (start (snd (stop t)))) = "started"%string).
Proof.
  intros Hr Hc. destruct s as [c r d e p f caps n t out].
  cbn in Hr, Hc. subst. repeat split.
  intros t'. unfold start. rewrite stop_state.
  destruct (camera t'); reflexivity.
Qed.

Lemma start_stop_round_trip_witness :
  snd (stop (snd (start (initial_server (fun _ => true) [Some blank]))))
  = initial_server (fun _ => true) [Some blank].
Proof.
  pose proof (@start_stop_round_trip
                (initial_server (fun _ => true) [Some blank])
                eq_refl eq_refl) as (_ & _ & H & _).
  exact H.
Defined.

(** ** What a pass can record *)

Lemma finally_release_data s :
  emotion_data (finally_release s) = emotion_data s /\
  current_emotion (finally_release s) = current_emotion s.
Proof. unfold finally_release. destruct (camera s); split; reflexivity. Qed.

(** A pass leaves the history alone or stores the one outcome of the one
    analyzer call it made, which happens only on a fifth pass. *)
Lemma guarded_pass_data detect fc s :
  emotion_data (snd (guarded_pass detect fc s)) = emotion_data s \/
  exists f f' emo conf,
    fc mod 5 = 0 /\ detect (clock s) f = Ok (f', emo, conf) /\
    emotion_data (snd (guarded_pass detect fc s))
    = store_emotion (emotion_data s) (clock s) emo conf.
Proof.
  unfold guarded_pass, loop_body.
  destruct (is_running s); cbn [negb];
    [| left; cbn [snd]; apply finally_release_data].
  destruct (camera s) as [cam |] eqn:Hcam.
  - unfold cap_read.
    destruct (isOpened cam s);
      [destruct (feed s) as [| [f |] rest] |]; cbv beta iota;
      try (left; cbn [snd]; unfold finally_release;
           cbn [camera print set_feed]; rewrite Hcam; reflexivity).
    unfold analyse. cbn [clock set_feed emotion_data].
    destruct (fc mod 5 =? 0) eqn:Hm.
    + destruct (detect (clock s) (flip f)) as [[[f' emo] conf] | exn] eqn:Hd;
        cbn [bind].
      * right. exists (flip f), f', emo, conf.
        apply Nat.eqb_eq in Hm. repeat split; assumption.
      * left. destruct (is_Exception exn); cbn [snd];
          unfold finally_release; cbn [camera print set_feed];
          rewrite Hcam; reflexivity.
    + left. reflexivity.
  - left. rewrite is_Exception_AttributeError. cbn [snd].
    unfold finally_release. cbn [camera print]. rewrite Hcam. reflexivity.
Qed.

Lemma gen_next_data detect g s :
  emotion_data (snd (gen_next detect g s)) = emotion_data s \/
  exists now f f' emo conf,
    detect now f = Ok (f', emo, conf) /\
    emotion_data (snd (gen_next detect g s))
    = store_emotion (emotion_data s) now emo conf.
Proof.
  destruct g as [| fc |]; cbn [gen_next].
  - unfold initialize_camera.
    destruct (@try_cameras_frame [0; 1; 2] s) as (_ & T2 & _).
    destruct (try_cameras [0; 1; 2] s) as [[|] t]; cbn [snd] in *;
      [| now left].
    destruct (guarded_pass_data detect 0 t)
      as [H | (f & f' & emo & conf & _ & Hd & H)].
    + left. congruence.
    + right. exists (clock t), f, f', emo, conf. rewrite <- T2. auto.
  - destruct (guarded_pass_data detect fc (sleep 33 s))
      as [H | (f & f' & emo & conf & _ & Hd & H)].
    + left. exact H.
    + right. exists (clock (sleep 33 s)), f, f', emo, conf. auto.
  - now left.
Qed.

Section Labels.

Variable detect_emotion : Analyzer.
Variable allowed : string -> Prop.
Hypothesis analyzer_labels :
  forall now f f' emo conf,
    detect_emotion now f = Ok (f', emo, conf) -> emo <> NO_FACE ->
    allowed emo.

(** Only labels the analyzer gave, other than the no-face label, are
    ever in the history. *)
Lemma reachable_labels s :
  reachable detect_emotion s ->
  Forall (fun d => allowed (emotion d)) (emotion_data s).
Proof.
  induction 1 as [present f | s _ IH | s _ IH | g s _ IH | g s _ IH].
  - constructor.
  - unfold start. destruct (is_running s); exact IH.
  - rewrite stop_state. destruct (camera s); exact IH.
  - destruct (gen_next_data detect_emotion g s)
      as [E | (now & f & f' & emo & conf & Hd & E)]; rewrite E;
      [exact IH |].
    unfold store_emotion.
    destruct (String.eqb_spec emo NO_FACE) as [_ | Hne]; [exact IH |].
    apply append_record_Forall; [exact IH |].
    cbn [emotion]. now apply (analyzer_labels Hd).
  - destruct g; cbn [gen_close snd]; try exact IH.
    now rewrite (proj1 (finally_release_data s)).
Qed.

End Labels.

Lemma reachable_run detect n g s :
  reachable detect s -> reachable detect (snd (run detect n (g, s))).
Proof.
  intros H. induction n as [| n IH]; [exact H |].
  unfold run in *. rewrite Nat.iter_succ. unfold advance at 1.
  destruct (Nat.iter n (advance detect) (g, s)) as [g' s'] eqn:E.
  cbn [fst snd] in *.
  pose proof (reach_next g' IH) as R.
  destruct (gen_next detect g' s') as [[nx g''] s'']. exact R.
Qed.

Lemma count_label_zero l data :
  Forall (fun d => emotion d <> l) data -> count_label l data = 0.
Proof.
  unfold count_label. induction 1 as [| d data Hd _ IH]; [reflexivity |].
  cbn [filter]. destruct (String.eqb_spec (emotion d) l); [contradiction |].
  exact IH.
Qed.

(** X6: whatever the analyzer, "No face detected" is never recorded: in
    every state the server can reach no record of the history carries that
    label, so [/api/stats] never counts it, and so never reports it as
    most common. *)
Theorem no_face_never_recorded (detect : Analyzer) (s : Server) :
  reachable detect s ->
  Forall (fun d => emotion d <> NO_FACE) (emotion_data s) /\
  count_label NO_FACE (emotion_data s) = 0 /\
  ~ In NO_FACE (keys (count_emotions (emotion_data s))) /\
  (forall total counts pcts,
     get_stats (emotion_data s) <> Ok (Stats total counts pcts (Some NO_FACE))).
Proof.
  intros R.
  assert (F : Forall (fun d => emotion d <> NO_FACE) (emotion_data s)).
  { apply (@reachable_labels detect (fun e => e <> NO_FACE)); [| exact R].
    intros now f f' emo conf _ H. exact H. }
  assert (Z : count_label NO_FACE (emotion_data s) = 0)
    by now apply count_label_zero.
  assert (K : ~ In NO_FACE (keys (count_emotions (emotion_data s)))).
  { intros Hin. apply count_emotions_positive in Hin. lia. }
  repeat split; try assumption.
  intros total counts pcts E.
  destruct (emotion_data s) as [| d data] eqn:Ed; [discriminate |].
  destruct (@get_stats_nonempty (d :: data)) as (l & pre & post & E' & Hc & _);
    [discriminate |].
  rewrite E' in E. inversion E; subst l.
  apply K. rewrite Hc. unfold keys. rewrite map_app. apply in_elt.
Qed.

Lemma no_face_never_recorded_witness :
  Forall (fun d => emotion d <> NO_FACE)
         (emotion_data (snd (run happy_stub 6 (GenCreated, started_server)))) /\
  length (emotion_data (snd (run happy_stub 6 (GenCreated, started_server))))
  = 2.
Proof.
  assert (R : reachable happy_stub
                (snd (run happy_stub 6 (GenCreated, started_server))))
    by (apply reachable_run, reach_start, reach_init).
  pose proof (no_face_never_recorded R) as (H & _).
  split; [exact H | reflexivity].
Defined.

(** ** The mock analyzer *)

Lemma emotions_not_no_face : ~ In NO_FACE emotions.
Proof. cbn. intros H. repeat (destruct H as [H | H]; [discriminate |]). exact H. Qed.

Section Mock.

Variable detectMultiScale : Frame -> list Box.
Variable randbelow : nat -> nat -> nat.
Variable uniform : nat -> float -> float -> float.
Variable draw_face : Frame -> Box -> string -> float -> Frame.

Lemma mock_label now f f' emo conf :
  detect_emotion_mock detectMultiScale randbelow uniform draw_face now f
  = Ok (f', emo, conf) ->
  (detectMultiScale f = [] /\ emo = NO_FACE /\ conf = 0%float /\ f' = f) \/
  (detectMultiScale f <> [] /\ In emo emotions /\
   conf = uniform now 0.7%float 0.95%float).
Proof.
  unfold detect_emotion_mock.
  destruct (detectMultiScale f) as [| b bs] eqn:Hf; cbn [length Nat.ltb Nat.leb].
  - intros H. inversion H; subst. left. auto.
  - destruct (nth_error emotions (randbelow now (length emotions)))
      as [e |] eqn:Hn; [| discriminate].
    intros H. inversion H; subst. right.
    repeat split; [discriminate |]. eapply nth_error_In, Hn.
Qed.

(** X15: the mock answers "No face detected" with confidence 0.0 and the
    frame as it got it exactly when the cascade finds no face; when it
    finds one the answer is one of the seven emotions, none of which is
    "No face detected", with the confidence that was drawn.  While
    [random.choice] draws an index inside its list, the mock never
    raises.  So an analysis pass records something exactly when a face
    was found. *)
Theorem mock_outcome (now : nat) (f : Frame) :
  (forall n, 0 < n -> randbelow now n < n) ->
  exists f' emo conf,
    detect_emotion_mock detectMultiScale randbelow uniform draw_face now f
    = Ok (f', emo, conf) /\
    (detectMultiScale f = [] ->
     emo = NO_FACE /\ conf = 0%float /\ f' = f /\
     forall data, store_emotion data now emo conf = data) /\
    (detectMultiScale f <> [] ->
     In emo emotions /\ emo <> NO_FACE /\
     conf = uniform now 0.7%float 0.95%float /\
     forall data, store_emotion data now emo conf
                  = append_record data (mkDetection now emo conf)).
Proof.
  intros Hr. unfold detect_emotion_mock.
  destruct (detectMultiScale f) as [| b bs] eqn:Hf; cbn [length Nat.ltb Nat.leb].
  - eexists _, _, _. split; [reflexivity |]. split; [| congruence].
    intros _. repeat split.
  - destruct (nth_error emotions (randbelow now (length emotions)))
      as [e |] eqn:Hn.
    + eexists _, _, _. split; [reflexivity |]. split; [discriminate |].
      intros _.
      assert (He : In e emotions) by (eapply nth_error_In, Hn).
      assert (Hne : e <> NO_FACE)
        by (intros ->; now apply emotions_not_no_face).
      repeat split; try assumption.
      intros data. unfold store_emotion.
      destruct (String.eqb_spec e NO_FACE); [contradiction | reflexivity].
    + exfalso. apply nth_error_None in Hn.
      specialize (Hr (length emotions)). cbn in Hr, Hn. lia.
Qed.

(** X7: with the mock as analyzer the history only ever holds the seven
    emotions of the list, so [/api/stats] has at most seven entries and
    the label it reports as most common is one of the seven. *)
Theorem mock_history_labels (s : Server) :
  reachable (detect_emotion_mock detectMultiScale randbelow uniform draw_face)
            s ->
  Forall (fun d => In (emotion d) emotions) (emotion_data s) /\
  length (count_emotions (emotion_data s)) <= 7 /\
  (forall total counts pcts l,
     get_stats (emotion_data s) = Ok (Stats total counts pcts (Some l)) ->
     length counts <= 7 /\ length pcts <= 7 /\ In l emotions).
Proof.
  intros R.
  assert (F : Forall (fun d => In (emotion d) emotions) (emotion_data s)).
  { apply (@reachable_labels
             (detect_emotion_mock detectMultiScale randbelow uniform draw_face)
             (fun e => In e emotions)); [| exact R].
    intros now f f' emo conf Hd Hne.
    destruct (mock_label _ _ Hd) as [(_ & He & _) | (_ & He & _)];
      [contradiction | exact He]. }
  assert (K : forall l, In l (keys (count_emotions (emotion_data s))) ->
                        In l emotions).
  { intros l Hin. apply count_emotions_positive in Hin.
    unfold count_label in Hin.
    destruct (filter _ (emotion_data s)) as [| d ds] eqn:Ef;
      [cbn in Hin; lia |].
    assert (Hd : In d (filter (fun r => String.eqb (emotion r) l)
                              (emotion_data s))) by (rewrite Ef; now left).
    apply filter_In in Hd as [H1 H2]. apply String.eqb_eq in H2. subst l.
    rewrite Forall_forall in F. now apply F. }
  assert (L : length (count_emotions (emotion_data s)) <= 7).
  { change 7 with (length emotions).
    rewrite <- (length_map fst (count_emotions (emotion_data s))).
    apply NoDup_incl_length; [apply count_emotions_NoDup | exact K]. }
  split; [exact F |]. split; [exact L |].
  intros total counts pcts l E.
  destruct (emotion_data s) as [| d data] eqn:Ed; [discriminate |].
  destruct (@get_stats_nonempty (d :: data)) as (l' & pre & post & E' & Hc & _);
    [discriminate |].
  rewrite E' in E. inversion E; subst.
  rewrite length_map. repeat split; try exact L.
  apply K. rewrite Hc. unfold keys. rewrite map_app. apply in_elt.
Qed.

End Mock.

Lemma mock_outcome_witness :
  exists f' emo conf,
    sample_mock 33 blank = Ok (f', emo, conf) /\ In emo emotions.
Proof.
  destruct (@mock_outcome (fun _ => [(0, 0, 1, 1)]) (fun now n => now mod n)
              (fun _ a _ => a) (fun fr _ _ _ => fr) 33 blank)
    as (f' & emo & conf & E & _ & H).
  - intros n Hn. apply Nat.mod_upper_bound. lia.
  - exists f', emo, conf. split; [exact E |]. apply H. discriminate.
Defined.

Lemma mock_history_labels_witness :
  Forall (fun d => In (emotion d) emotions)
         (emotion_data (snd (run sample_mock 11 (GenCreated, started_server)))) /\
  map emotion
      (emotion_data (snd (run sample_mock 11 (GenCreated, started_server))))
  = ["Happy"; "Neutral"; "Sad"]%string.
Proof.
  assert (R : reachable sample_mock
                (snd (run sample_mock 11 (GenCreated, started_server))))
    by (apply reachable_run, reach_start, reach_init).
  pose proof (mock_history_labels R) as (H & _).
  split; [exact H | reflexivity].
Defined.

(** ** One device, one open capture *)

Lemma finally_release_opened k s :
  isOpened k (finally_release s)
  = match camera s with
    | Some cam => if cam =? k then false else isOpened k s
    | None => isOpened k s
    end.
Proof.
  unfold finally_release. destruct (camera s) as [cam |]; [| reflexivity].
  apply isOpened_release.
Qed.

(** A pass opens nothing: a capture is after the pass what it was before,
    unless it is the one [camera] names and the pass released it. *)
Lemma guarded_pass_opened detect fc s k :
  isOpened k (snd (guarded_pass detect fc s)) = isOpened k s \/
  (camera s = Some k /\ isOpened k (snd (guarded_pass detect fc s)) = false).
Proof.
  assert (Hfin : forall t,
    camera t = camera s -> captures t = captures s ->
    isOpened k (finally_release t) = isOpened k s \/
    (camera s = Some k /\ isOpened k (finally_release t) = false)).
  { intros t Hc Hcap. rewrite finally_release_opened, Hc.
    assert (E : isOpened k t = isOpened k s)
      by (unfold isOpened; now rewrite Hcap).
    destruct (camera s) as [cam |]; [| now left].
    destruct (Nat.eqb_spec cam k) as [-> | _]; [now right | now left]. }
  unfold guarded_pass, loop_body.
  destruct (is_running s); cbn [negb]; [| cbn [snd]; now apply Hfin].
  destruct (camera s) as [cam |] eqn:Hcam.
  - unfold cap_read.
    destruct (isOpened cam s);
      [destruct (feed s) as [| [f |] rest] |]; cbv beta iota;
      try (cbn [snd]; apply Hfin; cbn; auto).
    destruct (analyse detect fc (flip f) (set_feed rest s))
      as [[f' t] | exn] eqn:Ha.
    + apply analyse_frame in Ha as (_ & _ & A3 & _).
      cbn [snd]. left. unfold isOpened. now rewrite A3.
    + destruct (is_Exception exn); cbn [snd]; apply Hfin; cbn; auto.
  - rewrite is_Exception_AttributeError. cbn [snd]. apply Hfin; cbn; auto.
Qed.

Lemma try_cameras_only_bound indices s :
  only_camera_open s -> only_camera_open (snd (try_cameras indices s)).
Proof.
  intros Inv h Ho.
  destruct (le_lt_dec (length (captures s)) h) as [Hge | Hlt].
  - now apply try_cameras_no_leak.
  - destruct (try_cameras_frame indices s) as (_ & _ & _ & _ & T5 & T6 & _).
    pose proof (Inv h (proj1 (T5 h Hlt) Ho)) as Hc.
    destruct (fst (try_cameras indices s)) eqn:Hok.
    + rewrite (@try_cameras_rebinds indices s h Hc Hlt Hok) in Ho.
      discriminate.
    + rewrite (proj1 (T6 eq_refl)). exact Hc.
Qed.

Lemma guarded_pass_only_bound detect fc s :
  only_camera_open s -> only_camera_open (snd (guarded_pass detect fc s)).
Proof.
  intros Inv h Ho.
  destruct (guarded_pass_frame detect fc s) as (_ & P2 & _).
  destruct (guarded_pass_opened detect fc s h) as [E | [_ E]];
    [| congruence].
  rewrite P2. apply Inv. congruence.
Qed.

Lemma finally_release_closes_all s h :
  only_camera_open s -> isOpened h (finally_release s) = false.
Proof.
  intros Inv. rewrite finally_release_opened.
  destruct (camera s) as [cam |] eqn:Hc.
  - destruct (Nat.eqb_spec cam h) as [-> | Hne]; [reflexivity |].
    destruct (isOpened h s) eqn:Ho; [| reflexivity].
    specialize (Inv h Ho). congruence.
  - destruct (isOpened h s) eqn:Ho; [| reflexivity].
    specialize (Inv h Ho). congruence.
Qed.

Lemma stop_closes_all s h :
  only_camera_open s -> isOpened h (snd (stop s)) = false.
Proof.
  intros Inv. rewrite stop_state.
  destruct (camera s) as [cam |] eqn:Hc.
  - change (isOpened h (cap_release cam s) = false).
    rewrite isOpened_release.
    destruct (Nat.eqb_spec cam h) as [-> | Hne]; [reflexivity |].
    destruct (isOpened h s) eqn:Ho; [| reflexivity].
    specialize (Inv h Ho). congruence.
  - change (isOpened h s = false).
    destruct (isOpened h s) eqn:Ho; [| reflexivity].
    specialize (Inv h Ho). congruence.
Qed.

Lemma reachable_only_bound detect s :
  reachable detect s -> only_camera_open s.
Proof.
  induction 1 as [present f | s _ IH | s _ IH | g s _ IH | g s _ IH].
  - intros h Ho. unfold isOpened in Ho. cbn in Ho.
    destruct h; discriminate.
  - unfold start. destruct (is_running s); exact IH.
  - intros h Ho. rewrite stop_closes_all in Ho by exact IH. discriminate.
  - destruct g as [| fc |]; cbn [gen_next].
    + unfold initialize_camera.
      pose proof (@try_cameras_only_bound [0; 1; 2] s IH) as T.
      destruct (try_cameras [0; 1; 2] s) as [[|] t]; cbn [snd] in *;
        [now apply guarded_pass_only_bound | exact T].
    + apply guarded_pass_only_bound. exact IH.
    + exact IH.
  - destruct g as [| fc |]; cbn [gen_close snd]; try exact IH.
    intros h Ho. rewrite finally_release_closes_all in Ho by exact IH.
    discriminate.
Qed.

(** X10: the server never holds two open captures.  In every state it can
    reach, a capture that is open is the one [camera] names, so at most
    one capture is open at a time; a [stop], or the closing of a parked
    generator, leaves no capture open; and whenever the server is not
    running no capture is open at all. *)
Theorem only_bound_capture_open (detect : Analyzer) (s : Server) :
  reachable detect s ->
  only_camera_open s /\
  (forall h k, isOpened h s = true -> isOpened k s = true -> h = k) /\
  (forall h, isOpened h (snd (stop s)) = false) /\
  (forall fc h, isOpened h (snd (gen_close (GenSuspended fc) s)) = false) /\
  (is_running s = false -> forall h, isOpened h s = false).
Proof.
  intros R. pose proof (reachable_only_bound R) as Inv.
  split; [exact Inv |]. split; [| split; [| split]].
  - intros h k Hh Hk. pose proof (Inv h Hh). pose proof (Inv k Hk).
    congruence.
  - intros h. now apply stop_closes_all.
  - intros fc h. cbn [gen_close snd]. now apply finally_release_closes_all.
  - intros Hr h. destruct (isOpened h s) eqn:Ho; [| reflexivity].
    destruct (reachable_inv R) as (_ & I2 & _).
    specialize (I2 Hr). unfold camera_open in I2.
    rewrite (Inv h Ho) in I2. congruence.
Qed.

Lemma only_bound_capture_open_witness :
  camera two_viewers = Some 1 /\
  isOpened 0 (snd (stop two_viewers)) = false /\
  isOpened 1 (snd (stop two_viewers)) = false.
Proof.
  assert (R : reachable happy_stub two_viewers)
    by (apply reach_next, reach_next, reach_start, reach_init).
  destruct (only_bound_capture_open R) as (H1 & _ & H2 & _).
  split; [apply H1; reflexivity |]. split; apply H2.
Defined.

(** On success [camera] names a capture built during the call. *)
Lemma try_cameras_binds_new indices : forall s,
  fst (try_cameras indices s) = true ->
  exists cam,
    camera (snd (try_cameras indices s)) = Some cam /\
    length (captures s) <= cam.
Proof.
  induction indices as [| i rest IH]; intros s; [discriminate |].
  cbn [try_cameras].
  pose proof (VideoCapture_isOpened i s) as Hnew.
  unfold VideoCapture in *. cbn [fst snd] in Hnew. rewrite Hnew.
  assert (Hrec : forall t,
    captures t = list_update (length (captures s)) false
                             (captures s ++ [device_present s i]) ->
    fst (try_cameras rest t) = true ->
    exists cam,
      camera (snd (try_cameras rest t)) = Some cam /\
      length (captures s) <= cam).
  { intros t Ht Hok. destruct (IH t Hok) as (cam & C & Hle).
    exists cam. split; [exact C |].
    rewrite Ht, list_update_length, length_app in Hle. cbn in Hle. lia. }
  destruct (device_present s i).
  - unfold cap_read. rewrite Hnew. cbn [feed set_captures].
    destruct (feed s) as [| [f |] fs]; cbv beta iota;
      try (apply Hrec; reflexivity).
    intros _. exists (length (captures s)). split; [| lia].
    cbv zeta. cbn [snd]. change (camera (print ?l ?x)) with (camera x).
    apply bind_camera_frame.
  - apply Hrec; reflexivity.
Qed.

(** X11: a second viewer takes the camera over.  When a generator is
    first advanced on a running server whose camera is open, and a device
    answers, [initialize_camera] binds [camera] to a new capture; the old
    one, named by nothing any more, is released.  The other earlier
    captures are as they were, and the [stop] that follows releases the new
    capture: the server ends not running, with no camera bound, and none
    of the captures built by the second viewer open. *)
Theorem second_viewer_rebinds (detect : Analyzer) (s : Server) (h i : nat)
    (f : Frame) (rest : list (option Frame)) :
  is_running s = true -> camera s = Some h -> isOpened h s = true ->
  h < length (captures s) ->
  i < 3 -> device_present s i = true -> feed s = Some f :: rest ->
  let s1 := snd (gen_next detect GenCreated s) in
  isOpened h s1 = false /\
  (exists cam, camera s1 = Some cam /\ length (captures s) <= cam) /\
  (forall k, k < length (captures s) -> k <> h ->
             isOpened k s1 = isOpened k s) /\
  is_running s1 = true /\
  is_running (snd (stop s1)) = false /\ camera (snd (stop s1)) = None /\
  isOpened h (snd (stop s1)) = false /\
  (forall k, length (captures s) <= k -> isOpened k (snd (stop s1)) = false).
Proof.
  intros Hr Hc Ho Hh Hi Hp Hf. cbn zeta.
  destruct (@try_cameras_ok [0; 1; 2] s f rest)
    as (cam & s2 & E2 & C2 & O2 & _ & R2 & _); [| exact Hf |].
  { exists i. split; [| exact Hp].
    destruct i as [| [| [| ?]]]; cbn; auto. lia. }
  destruct (@try_cameras_frame [0; 1; 2] s) as (_ & _ & _ & _ & T5 & _).
  pose proof (@try_cameras_rebinds [0; 1; 2] s h Hc Hh) as Hreb.
  pose proof (@try_cameras_no_leak [0; 1; 2] s) as Hnl.
  rewrite E2 in T5, Hreb, Hnl. cbn [fst snd] in T5, Hreb, Hnl.
  specialize (Hreb eq_refl).
  assert (Hnew : length (captures s) <= cam).
  { destruct (@try_cameras_binds_new [0; 1; 2] s) as (cam' & C' & Hle);
      [now rewrite E2 |].
    rewrite E2 in C'. cbn [snd] in C'. congruence. }
  assert (E : snd (gen_next detect GenCreated s)
              = snd (guarded_pass detect 0 s2)).
  { cbn [gen_next]. unfold initialize_camera. now rewrite E2. }
  rewrite E.
  destruct (@guarded_pass_frame detect 0 s2) as (P1 & P2 & _).
  assert (Hkeep : forall k, isOpened k (snd (guarded_pass detect 0 s2)) = true ->
                            isOpened k s2 = true).
  { intros k Hk.
    destruct (guarded_pass_opened detect 0 s2 k) as [Ek | [_ Ek]];
      congruence. }
  assert (H1 : isOpened h (snd (guarded_pass detect 0 s2)) = false).
  { destruct (isOpened h (snd (guarded_pass detect 0 s2))) eqn:Hk;
      [| reflexivity].
    apply Hkeep in Hk. congruence. }
  assert (Hstop : forall k,
    isOpened k (snd (stop (snd (guarded_pass detect 0 s2))))
    = if cam =? k then false
      else isOpened k (snd (guarded_pass detect 0 s2))).
  { intros k. rewrite stop_state, P2, C2.
    change (isOpened k (cap_release cam (snd (guarded_pass detect 0 s2)))
            = if cam =? k then false
              else isOpened k (snd (guarded_pass detect 0 s2))).
    apply isOpened_release. }
  split; [exact H1 |].
  split; [exists cam; split; [congruence | exact Hnew] |].
  split.
  { intros k Hk Hne.
    destruct (guarded_pass_opened detect 0 s2 k) as [Ek | [Ck _]].
    - rewrite Ek. apply (T5 k Hk). congruence.
    - rewrite C2 in Ck. inversion Ck. lia. }
  split; [congruence |].
  split; [apply stop_clears |]. split; [apply stop_clears |].
  split.
  { rewrite Hstop, H1. now destruct (cam =? h). }
  intros k Hk. rewrite Hstop.
  destruct (Nat.eqb_spec cam k) as [-> | Hne]; [reflexivity |].
  destruct (isOpened k (snd (guarded_pass detect 0 s2))) eqn:Hok;
    [| reflexivity].
  apply Hkeep in Hok. destruct (Hnl k Hk Hok) as (_ & Ck & _). congruence.
Qed.

Lemma second_viewer_rebinds_witness :
  isOpened 0 one_viewer = true /\
  isOpened 0 (snd (gen_next happy_stub GenCreated one_viewer)) = false /\
  is_running (snd (gen_next happy_stub GenCreated one_viewer)) = true /\
  camera (snd (stop (snd (gen_next happy_stub GenCreated one_viewer)))) = None.
Proof.
  pose proof (@second_viewer_rebinds happy_stub one_viewer 0 0 blank
                (repeat (Some blank) 37)
                eq_refl eq_refl eq_refl (le_n 1) (Nat.lt_0_succ 2)
                eq_refl eq_refl)
    as (H1 & _ & _ & H2 & _ & H3 & _).
  split; [reflexivity |]. split; [exact H1 |]. split; [exact H2 | exact H3].
Defined.

(** ** One chunk for every frame *)

Lemma store_emotion_length_le data now emo conf :
  length (store_emotion data now emo conf) <= length data + 1.
Proof.
  unfold store_emotion. destruct (String.eqb emo NO_FACE); [lia |].
  rewrite append_record_length_min. lia.
Qed.

Lemma total_pass detect fc s cam f rest :
  (forall now fr, exists r, detect now fr = Ok r) ->
  is_running s = true -> camera s = Some cam -> isOpened cam s = true ->
  feed s = Some f :: rest ->
  exists c s',
    guarded_pass detect fc s = (NextChunk c, GenSuspended (fc + 1), s') /\
    is_running s' = true /\ camera s' = Some cam /\
    isOpened cam s' = true /\ feed s' = rest /\
    status_line c = current_emotion s' /\
    length (emotion_data s')
    <= length (emotion_data s) + (if fc mod 5 =? 0 then 1 else 0) /\
    (fc mod 5 <> 0 ->
     emotion_data s' = emotion_data s /\
     current_emotion s' = current_emotion s /\ image c = flip f).
Proof.
  intros Ht Hr Hc Ho Hf. unfold guarded_pass, loop_body.
  rewrite Hr, Hc. cbn [negb]. unfold cap_read. rewrite Ho, Hf.
  cbv beta iota. unfold analyse.
  destruct (fc mod 5 =? 0) eqn:Hm.
  - destruct (Ht (clock (set_feed rest s)) (flip f)) as ([[f' emo] conf] & E).
    rewrite E. cbn [bind]. eexists _, _. split; [reflexivity |].
    apply Nat.eqb_eq in Hm.
    unfold isOpened in *. cbn. repeat split; auto; try contradiction.
    apply store_emotion_length_le.
  - eexists _, _. split; [reflexivity |].
    unfold isOpened in *. cbn. repeat split; auto. lia.
Qed.

(** X14: frames go out one for one.  On a running server with its camera
    open, as long as the camera has frames and the analyzer does not
    raise, every [next] of a parked generator consumes exactly one frame
    and yields exactly one chunk, whether or not it is an analysis pass;
    the generator stays parked with its counter advanced by one per chunk,
    the camera stays open, and the history grows by at most one record per
    analysis pass. *)
Theorem one_chunk_per_frame (detect : Analyzer) (frames : list Frame) :
  forall (fc : nat) (s : Server) (cam : nat) (rest : list (option Frame)),
  (forall now fr, exists r, detect now fr = Ok r) ->
  is_running s = true -> camera s = Some cam -> isOpened cam s = true ->
  feed s = map Some frames ++ rest ->
  let r := run detect (length frames) (GenSuspended fc, s) in
  fst r = GenSuspended (fc + length frames) /\
  length (stream detect (length frames) (GenSuspended fc) s)
  = length frames /\
  feed (snd r) = rest /\
  is_running (snd r) = true /\ camera (snd r) = Some cam /\
  isOpened cam (snd r) = true /\
  length (emotion_data (snd r))
  <= length (emotion_data s) + analysed fc (length frames).
Proof.
  induction frames as [| f frames IH]; intros fc s cam rest Ht Hr Hc Ho Hf;
    cbn zeta.
  - change (run detect (length (@nil Frame)) (GenSuspended fc, s))
      with (GenSuspended fc, s).
    unfold analysed. cbn [length seq filter fst snd stream].
    rewrite !Nat.add_0_r. repeat split; auto.
  - cbn [length]. rewrite run_S, stream_S. unfold advance.
    cbn [fst snd gen_next].
    destruct (@total_pass detect fc (sleep 33 s) cam f
                (map Some frames ++ rest) Ht)
      as (c & s' & E & H1 & H2 & H3 & H4 & _ & H5 & _); auto.
    rewrite E.
    specialize (IH (fc + 1) s' cam rest Ht H1 H2 H3 H4). cbn zeta in IH.
    destruct IH as (I1 & I2 & I3 & I4 & I5 & I6 & I7).
    rewrite I1, I3, I4, I5, I6, length_cons, I2, analysed_S.
    cbn [emotion_data sleep] in H5.
    replace (S fc) with (fc + 1) by lia.
    split; [f_equal; lia |]. split; [reflexivity |].
    split; [reflexivity |]. split; [reflexivity |].
    split; [reflexivity |]. split; [reflexivity |].
    destruct (fc mod 5 =? 0); lia.
Qed.

Lemma one_chunk_per_frame_witness :
  length (stream happy_stub (length (repeat blank 3)) (GenSuspended 1)
                 one_viewer)
  = length (repeat blank 3) /\
  feed (snd (run happy_stub (length (repeat blank 3))
                 (GenSuspended 1, one_viewer)))
  = repeat (Some blank) 35.
Proof.
  pose proof (@one_chunk_per_frame happy_stub (repeat blank 3) 1 one_viewer
                0 (repeat (Some blank) 35)
                (fun _ fr => ex_intro _ (fr, "Happy"%string, 0.9%float) eq_refl)
                eq_refl eq_refl eq_refl eq_refl)
    as (_ & H1 & H2 & _).
  split; assumption.
Defined.
